(** * 3d-earth: the per-frame animator, the starfield generator and the two
      fragment shaders of [src/main.js], embedded in Rocq.

    Conventions of the embedding.

    - In the animator and in the shaders a JavaScript [Number] and a GLSL
      [float] are modelled by a real number ([R]), where arithmetic is exact.
      What is stated there is what rounding leaves in place: the expression
      a field is assigned, plateaus, ranges, and inequalities with a margin.
      Module [Binary64] below states the animator once more on Rocq's
      primitive binary64 floats and module [GLSLFloat] the terminator factor
      on floats; they are used to run concrete frames, to show that an
      integration step cannot produce a NaN, and to show what rounding
      changes.
    - [new Date()] is the ECMAScript time value of the instant: an integer
      number of milliseconds since the epoch ([Z]).  The UTC getters are the
      ones of ECMA-262 (floor division and non-negative remainder).
    - [performance.now()] is a second, independent input of a frame: it counts
      milliseconds from the page's time origin, not from the epoch.
    - [Math.random()] is a stream; the starfield generator threads the
      position of the next draw, counted from the first draw of its loop.
    - The starfield generator is written once over the arithmetic it runs
      on (module [Starfield]): the rounded operations, the [Math] functions
      and the narrowing of a [Float32Array] store are fields of a record.
      It is instantiated with exact reals, with reals under rounding
      operators that are only known by their error bounds, and with
      binary64 floats narrowed to binary32.
    - The module-level variables that [animate] reads and writes are the
      fields of one record, [Scene]; [animate] is a function from the two
      clock readings and a scene to the next scene.  Rendering, the camera
      controller and the textual clock do not touch these fields and are not
      modelled. *)

From Stdlib Require Import Floats.
From Stdlib Require Import Reals Lra Lia ZArith List.
From Stdlib Require String Ascii DecimalString.
From Stdlib Require Import QArith.
From stdpp Require Import base list.
Import ListNotations.

Set Warnings "-inexact-float,-abstract-large-number".

Open Scope R_scope.

(* ------------------------------------------------------------------ *)
(** ** ECMAScript dates *)

Module JsDate.

(** A valid [Date] is its time value. *)
Definition Date := Z.

Definition msPerSecond : Z := 1000.
Definition msPerMinute : Z := 60000.
Definition msPerHour : Z := 3600000.
Definition msPerDay : Z := 86400000.

(** HourFromTime, MinFromTime, SecFromTime and msFromTime of ECMA-262. *)
Definition getUTCHours (t : Date) : Z := ((t / msPerHour) mod 24)%Z.
Definition getUTCMinutes (t : Date) : Z := ((t / msPerMinute) mod 60)%Z.
Definition getUTCSeconds (t : Date) : Z := ((t / msPerSecond) mod 60)%Z.
Definition getUTCMilliseconds (t : Date) : Z := (t mod msPerSecond)%Z.

(** The instant [h:m:s.ms] UTC of day number [day] (days since the epoch). *)
Definition atUTC (day h m s ms : Z) : Date :=
  (day * msPerDay + h * msPerHour + m * msPerMinute + s * msPerSecond + ms)%Z.

End JsDate.

(* ------------------------------------------------------------------ *)
(** ** Vectors (three.js [Vector3], GLSL [vec3] and [vec4]) *)

Record vec3 := Vec3 { vx : R; vy : R; vz : R }.
Record vec4 := Vec4 { rgb : vec3; alpha : R }.

Module Vector3.

Definition length (v : vec3) : R :=
  sqrt (vx v * vx v + vy v * vy v + vz v * vz v).

Definition divideScalar (v : vec3) (s : R) : vec3 :=
  Vec3 (vx v / s) (vy v / s) (vz v / s).

(** [normalize] divides by [length() || 1]; in three.js [divideScalar(s)] is
    the multiplication by [1 / s]. *)
Definition normalize (v : vec3) : vec3 :=
  let l := length v in
  divideScalar v (if Req_dec_T l 0 then 1 else l).

End Vector3.

(* ------------------------------------------------------------------ *)
(** ** GLSL built-ins used by the shaders *)

Module GLSL.

Definition dot (a b : vec3) : R :=
  vx a * vx b + vy a * vy b + vz a * vz b.

Definition scale (v : vec3) (s : R) : vec3 :=
  Vec3 (vx v * s) (vy v * s) (vz v * s).

Definition clamp (x minVal maxVal : R) : R := Rmin (Rmax x minVal) maxVal.

(** The reference formula of the GLSL specification.  The specification
    leaves the result undefined when [edge0 >= edge1]; implementations
    evaluate the same formula, which is what is modelled. *)
Definition smoothstep (edge0 edge1 x : R) : R :=
  let t := clamp ((x - edge0) / (edge1 - edge0)) 0 1 in
  t * t * (3 - 2 * t).

(** [pow x y] for [y > 0]: [x^y] when [x > 0] and [0] at [x = 0].  GLSL
    leaves [x < 0] undefined; the model returns [0] there. *)
Definition pow (x y : R) : R :=
  if Rlt_dec 0 x then Rpower x y else 0.

End GLSL.

(* ------------------------------------------------------------------ *)
(** ** Fragment shaders *)

(** [createAtmosphere], fragment shader. *)
Definition atmosphereFragment (vNormal vViewDir : vec3) : vec4 :=
  let fresnel := 1 - GLSL.dot vNormal vViewDir in
  let fresnel := GLSL.pow fresnel 3.5 in
  let atmosphereColor := Vec3 0.3 0.6 1.0 in
  Vec4 atmosphereColor (fresnel * 0.65).

(** [createNightLights], fragment shader: the terminator factor. *)
Definition nightFactor (sunFacing : R) : R :=
  GLSL.smoothstep (-0.1) (-0.3) sunFacing.

(** [createNightLights], fragment shader; [nightColor] is the texel
    [texture2D(nightMap, vUv)]. *)
Definition nightLightsFragment (vNormalW sunDirection : vec3) (nightColor : vec4)
  : vec4 :=
  let sunFacing := GLSL.dot vNormalW sunDirection in
  let nf := nightFactor sunFacing in
  Vec4 (GLSL.scale (GLSL.scale (rgb nightColor) nf) 1.5) (nf * vx (rgb nightColor)).

(* ------------------------------------------------------------------ *)
(** ** The starfield generator *)

Module Starfield.

(** The arithmetic the generator runs on: the numbers, the value of a
    decimal literal, the rounded operations, [Math.PI] and the [Math]
    functions, and [Math.fround], the narrowing applied by every store into a
    [Float32Array]. *)
Record Arith := mkArith {
  num : Type;
  lit : Q -> num;
  add : num -> num -> num;
  sub : num -> num -> num;
  mul : num -> num -> num;
  lt : num -> num -> bool;
  Math_PI : num;
  Math_sin : num -> num;
  Math_cos : num -> num;
  Math_acos : num -> num;
  Math_fround : num -> num
}.

Definition starCount : nat := 6000.

(** Position in the stream of the next draw. *)
Definition Rng := nat.

Section Generator.

Variable A : Arith.

Declare Scope js_scope.
Local Infix "+" := (add A) : js_scope.
Local Infix "-" := (sub A) : js_scope.
Local Infix "*" := (mul A) : js_scope.
Local Notation "x <? y" := (lt A x y) : js_scope.
Local Notation "# q" := (lit A q%Q) (at level 1, format "# q") : js_scope.
Local Open Scope js_scope.

(** The three [Float32Array]s handed to the buffer geometry. *)
Record Buffers := mkBuffers {
  positions : list (num A);
  sizes : list (num A);
  colors : list (num A)
}.

(** [new Float32Array(n)]: [n] zeros. *)
Definition newFloat32Array (n : nat) : list (num A) := repeat #0 n.

(** [a[i] = v] on a [Float32Array]: the value is narrowed, and a write past
    the end is ignored. *)
Definition store (a : list (num A)) (i : nat) (v : num A) : list (num A) :=
  <[i := Math_fround A v]> a.

(** The values [Math.random()] returns, in call order. *)
Variable rnd : nat -> num A.

Definition Math_random (k : Rng) : num A * Rng := (rnd k, S k).

(** One iteration of the [for] loop, at index [i]. *)
Definition starBody (i : nat) (st : Rng * Buffers) : Rng * Buffers :=
  let '(k, b) := st in
  let '(u, k) := Math_random k in
  let r := #200 + u * #100 in
  let '(u, k) := Math_random k in
  let theta := u * Math_PI A * #2 in
  let '(u, k) := Math_random k in
  let phi := Math_acos A (#2 * u - #1) in
  let positions :=
    store
      (store
         (store (positions b) (i * 3)%nat
            (r * Math_sin A phi * Math_cos A theta))
         (i * 3 + 1)%nat (r * Math_sin A phi * Math_sin A theta))
      (i * 3 + 2)%nat (r * Math_cos A phi) in
  let '(u, k) := Math_random k in
  let sizes := store (sizes b) i (#0.3 + u * #0.7) in
  let '(temp, k) := Math_random k in
  let colors :=
    if temp <? #0.15 then
      store (store (store (colors b) (i * 3)%nat #1.0) (i * 3 + 1)%nat #0.85)
        (i * 3 + 2)%nat #0.7
    else if temp <? #0.3 then
      store (store (store (colors b) (i * 3)%nat #0.7) (i * 3 + 1)%nat #0.8)
        (i * 3 + 2)%nat #1.0
    else
      store (store (store (colors b) (i * 3)%nat #1.0) (i * 3 + 1)%nat #1.0)
        (i * 3 + 2)%nat #1.0 in
  (k, mkBuffers positions sizes colors).

(** [for (let i = i0; i < i0 + n; i++) body]. *)
Fixpoint forLoop (n i : nat) (st : Rng * Buffers) : Rng * Buffers :=
  match n with
  | O => st
  | S n' => forLoop n' (S i) (starBody i st)
  end.

(** The generator with the star count as a parameter; [k0] is the position
    of the stream at the first draw of the loop. *)
Definition createStarfieldN (n : nat) (k0 : Rng) : Rng * Buffers :=
  forLoop n 0%nat
    (k0, mkBuffers (newFloat32Array (n * 3)) (newFloat32Array n)
           (newFloat32Array (n * 3))).

(** The buffers built by [createStarfield]; draw [0] of [rnd] is the first
    draw of the loop.  The buffers are complete when the loop ends; what
    the constructors called after it draw from the same source is not
    modelled. *)
Definition createStarfield : Buffers := snd (createStarfieldN starCount 0%nat).

(** Item [i] of a buffer attribute of item size 3 or 1. *)
Definition item3 (a : list (num A)) (i : nat) : num A * num A * num A :=
  (nth (i * 3) a #0, nth (i * 3 + 1) a #0, nth (i * 3 + 2) a #0).

Definition item1 (a : list (num A)) (i : nat) : num A := nth i a #0.

(** What one iteration stores, as functions of its five draws. *)
Definition starPosition (u_r u_theta u_phi : num A) : num A * num A * num A :=
  let r := #200 + u_r * #100 in
  let theta := u_theta * Math_PI A * #2 in
  let phi := Math_acos A (#2 * u_phi - #1) in
  (Math_fround A (r * Math_sin A phi * Math_cos A theta),
   Math_fround A (r * Math_sin A phi * Math_sin A theta),
   Math_fround A (r * Math_cos A phi)).

Definition starSize (u : num A) : num A := Math_fround A (#0.3 + u * #0.7).

Definition starColor (temp : num A) : num A * num A * num A :=
  if temp <? #0.15 then
    (Math_fround A #1.0, Math_fround A #0.85, Math_fround A #0.7)
  else if temp <? #0.3 then
    (Math_fround A #0.7, Math_fround A #0.8, Math_fround A #1.0)
  else
    (Math_fround A #1.0, Math_fround A #1.0, Math_fround A #1.0).

(** The loop invariant before iteration [i] of a generator of [n] stars that
    took its first draw at [k0]: five draws were taken per star, the buffers
    keep their lengths, and star [j < i] is the one stored from draws
    [k0 + 5 j .. k0 + 5 j + 4]. *)
Definition loopInvariant (n k0 i : nat) (st : Rng * Buffers) : Prop :=
  fst st = (k0 + 5 * i)%nat
  /\ length (positions (snd st)) = (n * 3)%nat
  /\ length (sizes (snd st)) = n
  /\ length (colors (snd st)) = (n * 3)%nat
  /\ forall j : nat,
      (j < i)%nat ->
      item3 (positions (snd st)) j
      = starPosition (rnd (k0 + 5 * j)%nat) (rnd (k0 + 5 * j + 1)%nat)
          (rnd (k0 + 5 * j + 2)%nat)
      /\ item1 (sizes (snd st)) j = starSize (rnd (k0 + 5 * j + 3)%nat)
      /\ item3 (colors (snd st)) j = starColor (rnd (k0 + 5 * j + 4)%nat).

End Generator.

Arguments positions {A} b.
Arguments sizes {A} b.
Arguments colors {A} b.

End Starfield.

(* ------------------------------------------------------------------ *)
(** ** The scene and the per-frame animator *)

(** An orbit group made by [createSatellite]: its own [rotation.y], and in
    [userData] the angular speed and the satellite body, of which only
    [rotation.y] is kept ([None] when [userData.satGroup] is absent). *)
Record Satellite := mkSatellite {
  sat_rotation_y : R;
  userData_speed : R;
  userData_satGroup : option R
}.

Record Scene := mkScene {
  previousTime : R;
  earth_rotation_y : R;
  nightLights_rotation_y : R;
  nightLights_sunDirection : vec3;
  sunLight_position : vec3;
  clouds_rotation_y : R;
  moonOrbit_rotation_y : R;
  moonMesh_rotation_y : R;
  satellites : list Satellite;
  starfield_rotation_y : R
}.

Definition EARTH_RADIUS : R := 5.

(** [createSatellite(orbitRadius, speed, color, size)].  The orbit radius, the
    color and the size go into the geometry and the materials, and the random
    tilt into [rotation.x] and [rotation.z]; none of them is read by
    [animate].  Both [rotation.y] start at [0]. *)
Definition createSatellite (orbitRadius speed : R) (color : Z) (size : R)
  : Satellite :=
  mkSatellite 0 speed (Some 0).

(** The scene as assembled at load time; [t0] is [performance.now() / 1000]
    at that moment. *)
Definition initialScene (t0 : R) : Scene :=
  {| previousTime := t0;
     earth_rotation_y := 0;
     nightLights_rotation_y := 0;
     nightLights_sunDirection := Vector3.normalize (Vec3 1 0 1);
     sunLight_position := Vec3 20 5 20;
     clouds_rotation_y := 0;
     moonOrbit_rotation_y := 0;
     moonMesh_rotation_y := 0;
     satellites :=
       [createSatellite (EARTH_RADIUS + 2.0) 0.5 0xc0c0c0 0.12;
        createSatellite (EARTH_RADIUS + 3.5) 0.3 0xaabbcc 0.1;
        createSatellite (EARTH_RADIUS + 1.5) 0.7 0xdddddd 0.08];
     starfield_rotation_y := 0 |}.

Definition utcHours (now : JsDate.Date) : R :=
  IZR (JsDate.getUTCHours now)
  + IZR (JsDate.getUTCMinutes now) / 60
  + IZR (JsDate.getUTCSeconds now) / 3600
  + IZR (JsDate.getUTCMilliseconds now) / 3600000.

(** [Math.min(currentTime - previousTime, 0.1)]. *)
Definition clampedDelta (currentTime previousTime : R) : R :=
  Rmin (currentTime - previousTime) 0.1.

(** The callback of [satellites.forEach]. *)
Definition animateSatellite (delta : R) (sat : Satellite) : Satellite :=
  let y := sat_rotation_y sat + delta * userData_speed sat in
  let g :=
    match userData_satGroup sat with
    | Some gy => Some (gy + delta * 0.3)
    | None => None
    end in
  mkSatellite y (userData_speed sat) g.

(** One frame.  [perfNow] is the reading of [performance.now()] and [now] the
    reading of [new Date()]. *)
Definition animate (perfNow : R) (now : JsDate.Date) (w : Scene) : Scene :=
  let currentTime := perfNow / 1000 in
  let delta := clampedDelta currentTime (previousTime w) in
  let previousTime' := currentTime in
  let earth_y := (utcHours now / 24) * PI * 2 in
  let nightLights_y := earth_y in
  let sunDir := Vector3.normalize (sunLight_position w) in
  let clouds_y := earth_y + currentTime * 0.003 in
  {| previousTime := previousTime';
     earth_rotation_y := earth_y;
     nightLights_rotation_y := nightLights_y;
     nightLights_sunDirection := sunDir;
     sunLight_position := sunLight_position w;
     clouds_rotation_y := clouds_y;
     moonOrbit_rotation_y := moonOrbit_rotation_y w + delta * 0.08;
     moonMesh_rotation_y := moonMesh_rotation_y w + delta * 0.08;
     satellites := map (animateSatellite delta) (satellites w);
     starfield_rotation_y := starfield_rotation_y w + delta * 0.001 |}.

(** The readings of the two clocks at one frame. *)
Record Frame := mkFrame { perfNow : R; dateNow : JsDate.Date }.

(** The scene after the frames of [fs], oldest first. *)
Definition run (fs : list Frame) (w : Scene) : Scene :=
  fold_left (fun w f => animate (perfNow f) (dateNow f) w) fs w.

(* ------------------------------------------------------------------ *)
(** ** The animator on IEEE-754 binary64

    The same statements as [animate], on the primitive floats of Rocq, which
    are the [Number]s of JavaScript.  Decimal literals denote the nearest
    binary64 value, as they do in JavaScript. *)

Module Binary64.

Import PrimFloat.
Local Open Scope float_scope.

(** [Math.PI], the binary64 value nearest to pi. *)
Definition Math_PI : float := 0x1.921fb54442d18p+1.

(** The [Number] of an integer in [0, 2^53): exact. *)
Definition ofInt (z : Z) : float := of_uint63 (Uint63.of_Z z).

(** [Math.min] of two arguments: NaN if either is NaN, and [-0] below [+0]. *)
Definition Math_min (a b : float) : float :=
  if is_nan a || is_nan b then nan
  else if a <? b then a
  else if b <? a then b
  else if get_sign a then a else b.

Record Satellite := mkSatellite {
  sat_rotation_y : float;
  userData_speed : float;
  userData_satGroup : option float
}.

Record Scene := mkScene {
  previousTime : float;
  earth_rotation_y : float;
  nightLights_rotation_y : float;
  clouds_rotation_y : float;
  moonOrbit_rotation_y : float;
  moonMesh_rotation_y : float;
  satellites : list Satellite;
  starfield_rotation_y : float
}.

Definition EARTH_RADIUS : float := 5.

Definition createSatellite (orbitRadius speed : float) (color : Z) (size : float)
  : Satellite :=
  mkSatellite 0 speed (Some 0).

Definition initialScene (t0 : float) : Scene :=
  {| previousTime := t0;
     earth_rotation_y := 0;
     nightLights_rotation_y := 0;
     clouds_rotation_y := 0;
     moonOrbit_rotation_y := 0;
     moonMesh_rotation_y := 0;
     satellites :=
       [createSatellite (EARTH_RADIUS + 2.0) 0.5 0xc0c0c0 0.12;
        createSatellite (EARTH_RADIUS + 3.5) 0.3 0xaabbcc 0.1;
        createSatellite (EARTH_RADIUS + 1.5) 0.7 0xdddddd 0.08];
     starfield_rotation_y := 0 |}.

Definition utcHours (now : JsDate.Date) : float :=
  ofInt (JsDate.getUTCHours now)
  + ofInt (JsDate.getUTCMinutes now) / 60
  + ofInt (JsDate.getUTCSeconds now) / 3600
  + ofInt (JsDate.getUTCMilliseconds now) / 3600000.

Definition clampedDelta (currentTime previousTime : float) : float :=
  Math_min (currentTime - previousTime) 0.1.

(** [angle += delta * rate]. *)
Definition integrate (angle delta rate : float) : float :=
  angle + delta * rate.

Definition animateSatellite (delta : float) (sat : Satellite) : Satellite :=
  mkSatellite
    (integrate (sat_rotation_y sat) delta (userData_speed sat))
    (userData_speed sat)
    (match userData_satGroup sat with
     | Some gy => Some (integrate gy delta 0.3)
     | None => None
     end).

Definition animate (perfNow : float) (now : JsDate.Date) (w : Scene) : Scene :=
  let currentTime := perfNow / 1000 in
  let delta := clampedDelta currentTime (previousTime w) in
  let earth_y := (utcHours now / 24) * Math_PI * 2 in
  {| previousTime := currentTime;
     earth_rotation_y := earth_y;
     nightLights_rotation_y := earth_y;
     clouds_rotation_y := earth_y + currentTime * 0.003;
     moonOrbit_rotation_y := integrate (moonOrbit_rotation_y w) delta 0.08;
     moonMesh_rotation_y := integrate (moonMesh_rotation_y w) delta 0.08;
     satellites := List.map (animateSatellite delta) (satellites w);
     starfield_rotation_y := integrate (starfield_rotation_y w) delta 0.001 |}.



End Binary64.

(* ------------------------------------------------------------------ *)
(** ** The arithmetics of the starfield generator *)

(** [Math.fround] on binary64: the nearest binary32 value, ties to even,
    with the overflow and underflow of binary32. *)
Module Binary32.

Definition renormalize (x : spec_float) : spec_float :=
  match x with
  | S754_finite s m e => binary_round 53 1024 s m e
  | _ => x
  end.

Definition Math_fround (x : float) : float :=
  match Prim2SF x with
  | S754_finite s m e => SF2Prim (renormalize (binary_round 24 128 s m e))
  | _ => x
  end.

End Binary32.

(** Reals under rounding: [fl] rounds the exact result of an operation or a
    literal to binary64, [fround] narrows to binary32, and the three [Math]
    functions are those of the engine. *)
Definition roundedArith (fl fround Math_sin Math_cos Math_acos : R -> R)
  : Starfield.Arith :=
  {| Starfield.num := R;
     Starfield.lit := fun q => fl (Q2R q);
     Starfield.add := fun x y => fl (x + y);
     Starfield.sub := fun x y => fl (x - y);
     Starfield.mul := fun x y => fl (x * y);
     Starfield.lt := fun x y => if Rlt_dec x y then true else false;
     Starfield.Math_PI := fl PI;
     Starfield.Math_sin := Math_sin;
     Starfield.Math_cos := Math_cos;
     Starfield.Math_acos := Math_acos;
     Starfield.Math_fround := fround |}.

(** Exact arithmetic: nothing is rounded. *)
Definition exactArith : Starfield.Arith :=
  roundedArith (fun x => x) (fun x => x) sin cos acos.

(** Binary64 with stores narrowed to binary32; the [Math] functions of the
    engine are parameters.  A literal [p/q] is the quotient of two integers
    that binary64 holds exactly, so it is the binary64 value nearest to
    it. *)
Definition binary64Arith (Math_sin Math_cos Math_acos : float -> float)
  : Starfield.Arith :=
  {| Starfield.num := float;
     Starfield.lit :=
       fun q => PrimFloat.div (Binary64.ofInt (Qnum q))
                  (Binary64.ofInt (Zpos (Qden q)));
     Starfield.add := PrimFloat.add;
     Starfield.sub := PrimFloat.sub;
     Starfield.mul := PrimFloat.mul;
     Starfield.lt := PrimFloat.ltb;
     Starfield.Math_PI := Binary64.Math_PI;
     Starfield.Math_sin := Math_sin;
     Starfield.Math_cos := Math_cos;
     Starfield.Math_acos := Math_acos;
     Starfield.Math_fround := Binary32.Math_fround |}.

(** The three colors as a [Float32Array] holds them. *)
Module StoredColor.

Definition warm : float * float * float :=
  (Binary32.Math_fround 1.0, Binary32.Math_fround 0.85, Binary32.Math_fround 0.7)%float.
Definition cool : float * float * float :=
  (Binary32.Math_fround 0.7, Binary32.Math_fround 0.8, Binary32.Math_fround 1.0)%float.
Definition white : float * float * float :=
  (Binary32.Math_fround 1.0, Binary32.Math_fround 1.0, Binary32.Math_fround 1.0)%float.

End StoredColor.



(** The values of [Math.acos], [Math.sin] and [Math.cos] at the arguments
    one star with [theta = 0] and [phi = Math.acos(0.03125)] needs; no other
    argument is tabulated. *)
Module MathSample.

Definition Math_acos (x : float) : float :=
  if PrimFloat.eqb x 0.03125 then 1.5395412382954015%float else nan.

Definition Math_sin (x : float) : float :=
  if PrimFloat.eqb x 0 then 0%float
  else if PrimFloat.eqb x 1.5395412382954015 then 0.9995115994824673%float
  else nan.

Definition Math_cos (x : float) : float :=
  if PrimFloat.eqb x 0 then 1%float
  else if PrimFloat.eqb x 1.5395412382954015 then 0.03125000000000001%float
  else nan.

End MathSample.

(* ------------------------------------------------------------------ *)
(** ** The terminator factor on floats *)

(** The reference formulas of [clamp] and [smoothstep] evaluated on floats.
    [rnd] rounds the result of every operation and every literal to the
    precision of the shader: [Binary32.Math_fround] for 32-bit floats, the
    identity for binary64. *)
Module GLSLFloat.

Import PrimFloat.
Local Open Scope float_scope.

(** [min(x, y)] is [y < x ? y : x] and [max(x, y)] is [x < y ? y : x]. *)
Definition min (x y : float) : float := if y <? x then y else x.
Definition max (x y : float) : float := if x <? y then y else x.

Definition clamp (x minVal maxVal : float) : float := min (max x minVal) maxVal.

Definition smoothstep (rnd : float -> float) (edge0 edge1 x : float) : float :=
  let t := clamp (rnd (rnd (x - edge0) / rnd (edge1 - edge0))) 0 1 in
  rnd (rnd (t * t) * rnd (3 - rnd (2 * t))).

(** [createNightLights], fragment shader: the terminator factor. *)
Definition nightFactor (rnd : float -> float) (sunFacing : float) : float :=
  smoothstep rnd (rnd (-0.1)) (rnd (-0.3)) sunFacing.

(** The two precisions. *)
Definition binary32 : float -> float := Binary32.Math_fround.
Definition binary64 : float -> float := fun x => x.

End GLSLFloat.

(* ------------------------------------------------------------------ *)
(** ** Observations of a scene *)

(** The angles that [animate] integrates from the frame delta, in the order
    moon orbit, moon spin, starfield, then for each satellite its orbit angle
    and, when it has a body, the body's spin. *)
Definition integratedAngles (w : Scene) : list R :=
  moonOrbit_rotation_y w :: moonMesh_rotation_y w :: starfield_rotation_y w
  :: flat_map
       (fun sat =>
          sat_rotation_y sat
          :: match userData_satGroup sat with Some gy => [gy] | None => [] end)
       (satellites w).

(** The rate of each of them, in the same order. *)
Definition integrationRates (w : Scene) : list R :=
  0.08 :: 0.08 :: 0.001
  :: flat_map
       (fun sat =>
          userData_speed sat
          :: match userData_satGroup sat with Some _ => [0.3] | None => [] end)
       (satellites w).

(** The delta of the frame that reads [perf] on the frame clock in scene [w]. *)
Definition frameDelta (perf : R) (w : Scene) : R :=
  clampedDelta (perf / 1000) (previousTime w).

(* ------------------------------------------------------------------ *)
(** ** The claims in the words of the specification *)

Module Spec.

(** Seconds of wall-clock time elapsed since the last UTC midnight. *)
Definition secondsSinceUTCMidnight (now : JsDate.Date) : R :=
  IZR (now mod JsDate.msPerDay) / 1000.



End Spec.

(* ------------------------------------------------------------------ *)
(** ** Runs of frames *)

(** The deltas of the frames of a run that starts with [previousTime] equal
    to [t_prev], oldest first. *)
Fixpoint runDeltas (fs : list Frame) (t_prev : R) : list R :=
  match fs with
  | [] => []
  | f :: fs' =>
      clampedDelta (perfNow f / 1000) t_prev :: runDeltas fs' (perfNow f / 1000)
  end.

Definition sumR (l : list R) : R := fold_right Rplus 0 l.

(** The frame clock never goes backwards during the run. *)
Fixpoint forwardClock (fs : list Frame) (t_prev : R) : Prop :=
  match fs with
  | [] => True
  | f :: fs' => t_prev <= perfNow f / 1000 /\ forwardClock fs' (perfNow f / 1000)
  end.

(** Whether the satellite has a body ([userData.satGroup] is present). *)
Definition hasBody (sat : Satellite) : bool :=
  match userData_satGroup sat with Some _ => true | None => false end.

(** The readings of the two clocks at one frame, on binary64. *)
Record Frame64 := mkFrame64 { perfNow64 : float; dateNow64 : JsDate.Date }.

Definition run64 (fs : list Frame64) (w : Binary64.Scene) : Binary64.Scene :=
  fold_left (fun w f => Binary64.animate (perfNow64 f) (dateNow64 f) w) fs w.


(* ------------------------------------------------------------------ *)
(** ** The textual UTC clock *)

Module ClockDisplay.

Import String Ascii.
Local Open Scope string_scope.

(** [String(n)] for an integer [n]. *)
Definition String_ (n : Z) : string :=
  DecimalString.NilZero.string_of_int (Z.to_int n).

Fixpoint repeatString (s : string) (n : nat) : string :=
  match n with
  | O => ""
  | S n' => s ++ repeatString s n'
  end.

(** [s.padStart(targetLength, padString)]: [s] itself when it is long enough
    or the pad is empty, else [s] after as much of the repeated pad as fills
    the length. *)
Definition padStart (s : string) (targetLength : nat) (padString : string)
  : string :=
  let len := String.length s in
  if (targetLength <=? len)%nat then s
  else if (String.length padString =? 0)%nat then s
  else
    let fillLen := (targetLength - len)%nat in
    substring 0 fillLen (repeatString padString fillLen) ++ s.

(** The text written by [animate] into the clock element. *)
Definition clockText (now : JsDate.Date) : string :=
  "UTC "
  ++ padStart (String_ (JsDate.getUTCHours now)) 2 "0"
  ++ ":"
  ++ padStart (String_ (JsDate.getUTCMinutes now)) 2 "0"
  ++ ":"
  ++ padStart (String_ (JsDate.getUTCSeconds now)) 2 "0".

(** [if (clockEl) clockEl.textContent = ...]: the element is its text, and
    [None] when the page has no such element. *)
Definition updateClock (clockEl : option string) (now : JsDate.Date)
  : option string :=
  match clockEl with
  | Some _ => Some (clockText now)
  | None => None
  end.

(** Reading a text back: the number written in decimal by the two characters
    at [pos] and [pos + 1]. *)
Definition digitValue (c : ascii) : option Z :=
  let n := Z.of_nat (nat_of_ascii c) in
  if ((48 <=? n) && (n <=? 57))%Z then Some (n - 48)%Z else None.

Definition twoDigitsAt (s : string) (pos : nat) : option Z :=
  match get pos s, get (S pos) s with
  | Some a, Some b =>
      match digitValue a, digitValue b with
      | Some x, Some y => Some (10 * x + y)%Z
      | _, _ => None
      end
  | _, _ => None
  end.

(** One zero-padded field of the clock text. *)
Definition pad2 (n : Z) : string := padStart (String_ n) 2 "0".

(** [pad2 n] is the two decimal digits of [n]. *)
Definition isTwoDigitsOf (n : Z) : bool :=
  match pad2 n with
  | String a (String b EmptyString) =>
      match digitValue a, digitValue b with
      | Some x, Some y => ((x =? n / 10) && (y =? n mod 10))%Z
      | _, _ => false
      end
  | _ => false
  end.

End ClockDisplay.

(* ------------------------------------------------------------------ *)
(** ** The satellite builder *)

(** [THREE.MathUtils]. *)
Module MathUtils.

Definition degToRad (degrees : R) : R := degrees * (PI / 180).

(** [randFloat(low, high)] draws once from [Math.random]. *)
Definition randFloat (rnd : nat -> R) (k : nat) (low high : R) : R * nat :=
  (low + rnd k * (high - low), S k).

End MathUtils.

Module SatelliteBuilder.

(** [BoxGeometry(width, height, depth)]: a box centered at the origin of its
    mesh. *)
Record Box := mkBox { width : R; height : R; depth : R }.

Record Material := mkMaterial { color : Z; roughness : R; metalness : R }.

Record Mesh := mkMesh { geometry : Box; material : Material; position_x : R }.

(** The orbit group returned by [createSatellite]. *)
Record OrbitGroup := mkOrbitGroup {
  rotation_x : R;
  rotation_y : R;
  rotation_z : R;
  body : Mesh;
  panelLeft : Mesh;
  panelRight : Mesh;
  satGroup_position_x : R;
  satGroup_rotation_y : R;
  speed : R
}.

(** [createSatellite]; [rnd k] and [rnd (k + 1)] are the values the two
    calls of [randFloat] draw.  What the constructors of the three.js
    objects draw from the same source is not modelled. *)
Definition createSatellite (rnd : nat -> R) (k : nat)
    (orbitRadius speed : R) (color : Z) (size : R) : OrbitGroup * nat :=
  let '(tiltX, k) := MathUtils.randFloat rnd k 20 80 in
  let '(tiltZ, k) := MathUtils.randFloat rnd k (-30) 30 in
  let bodyGeom := mkBox size (size * 0.6) (size * 1.8) in
  let bodyMat := mkMaterial color 0.3 0.8 in
  let panelGeom := mkBox (size * 3) (size * 0.05) (size * 0.8) in
  let panelMat := mkMaterial 0x1a3a6a 0.2 0.6 in
  ({| rotation_x := MathUtils.degToRad tiltX;
      rotation_y := 0;
      rotation_z := MathUtils.degToRad tiltZ;
      body := mkMesh bodyGeom bodyMat 0;
      panelLeft := mkMesh panelGeom panelMat (- size * 1.8);
      panelRight := mkMesh panelGeom panelMat (size * 1.8);
      satGroup_position_x := orbitRadius;
      satGroup_rotation_y := 0;
      speed := speed |}, k).

(** The extent of a mesh along the X axis of the satellite. *)
Definition minX (m : Mesh) : R := position_x m - width (geometry m) / 2.
Definition maxX (m : Mesh) : R := position_x m + width (geometry m) / 2.

(** What [animate] reads and writes of an orbit group. *)
Definition animated (g : OrbitGroup) : Satellite :=
  mkSatellite (rotation_y g) (speed g) (Some (satGroup_rotation_y g)).

End SatelliteBuilder.

(* ------------------------------------------------------------------ *)
(** * Properties *)

(** ** Dates *)

Section DateFacts.

Import JsDate.
Local Open Scope Z_scope.

Lemma getUTCHours_range t : 0 <= getUTCHours t <= 23.
Proof. unfold getUTCHours. pose proof (Z.mod_pos_bound (t / msPerHour) 24). lia. Qed.

Lemma getUTCMinutes_range t : 0 <= getUTCMinutes t <= 59.
Proof. unfold getUTCMinutes. pose proof (Z.mod_pos_bound (t / msPerMinute) 60). lia. Qed.

Lemma getUTCSeconds_range t : 0 <= getUTCSeconds t <= 59.
Proof. unfold getUTCSeconds. pose proof (Z.mod_pos_bound (t / msPerSecond) 60). lia. Qed.

Lemma getUTCMilliseconds_range t : 0 <= getUTCMilliseconds t <= 999.
Proof.
  unfold getUTCMilliseconds, msPerSecond.
  pose proof (Z.mod_pos_bound t 1000). lia.
Qed.

Section Fields.

Variables day h m s ms : Z.
Hypothesis Hh : 0 <= h < 24.
Hypothesis Hm : 0 <= m < 60.
Hypothesis Hs : 0 <= s < 60.
Hypothesis Hms : 0 <= ms < 1000.

Lemma getUTCHours_atUTC : getUTCHours (atUTC day h m s ms) = h.
Proof.
  unfold getUTCHours, atUTC, msPerDay, msPerHour, msPerMinute, msPerSecond.
  replace (_ / 3600000) with (h + day * 24).
  - rewrite Z.mod_add by lia. apply Z.mod_small; lia.
  - apply Z.div_unique with (r := m * 60000 + s * 1000 + ms); lia.
Qed.

Lemma getUTCMinutes_atUTC : getUTCMinutes (atUTC day h m s ms) = m.
Proof.
  unfold getUTCMinutes, atUTC, msPerDay, msPerHour, msPerMinute, msPerSecond.
  replace (_ / 60000) with (m + (day * 24 + h) * 60).
  - rewrite Z.mod_add by lia. apply Z.mod_small; lia.
  - apply Z.div_unique with (r := s * 1000 + ms); lia.
Qed.

Lemma getUTCSeconds_atUTC : getUTCSeconds (atUTC day h m s ms) = s.
Proof.
  unfold getUTCSeconds, atUTC, msPerDay, msPerHour, msPerMinute, msPerSecond.
  replace (_ / 1000) with (s + ((day * 24 + h) * 60 + m) * 60).
  - rewrite Z.mod_add by lia. apply Z.mod_small; lia.
  - apply Z.div_unique with (r := ms); lia.
Qed.

Lemma getUTCMilliseconds_atUTC : getUTCMilliseconds (atUTC day h m s ms) = ms.
Proof.
  unfold getUTCMilliseconds, atUTC, msPerDay, msPerHour, msPerMinute, msPerSecond.
  replace (day * 86400000 + h * 3600000 + m * 60000 + s * 1000 + ms)
    with (ms + (((day * 24 + h) * 60 + m) * 60 + s) * 1000) by lia.
  rewrite Z.mod_add by lia. apply Z.mod_small; lia.
Qed.

Lemma utcHours_atUTC :
  utcHours (atUTC day h m s ms)
  = (IZR h + IZR m / 60 + IZR s / 3600 + IZR ms / 3600000)%R.
Proof.
  unfold utcHours.
  now rewrite getUTCHours_atUTC, getUTCMinutes_atUTC, getUTCSeconds_atUTC,
    getUTCMilliseconds_atUTC.
Qed.

End Fields.

End DateFacts.

Lemma utcHours_range now : 0 <= utcHours now < 24.
Proof.
  unfold utcHours.
  destruct (getUTCHours_range now) as [h0 h1].
  destruct (getUTCMinutes_range now) as [m0 m1].
  destruct (getUTCSeconds_range now) as [s0 s1].
  destruct (getUTCMilliseconds_range now) as [u0 u1].
  apply IZR_le in h0, h1, m0, m1, s0, s1, u0, u1.
  lra.
Qed.

(** ** The planet's own rotation *)

(** C1.  The planet's own-rotation angle written by a frame is
    [(utcHours / 24) * 2 pi] with [utcHours = H + M/60 + S/3600 + ms/3600000]
    read from the frame's UTC instant; it is the same whatever the scene
    before the frame and whatever the reading of the frame clock; and at
    00:00:00.000, 06:00:00.000 and 12:00:00.000 UTC of any day it is [0],
    [pi/2] and [pi]. *)
Theorem planet_rotation_is_utc_angle :
  forall (perf : R) (now : JsDate.Date) (w : Scene),
    earth_rotation_y (animate perf now w)
    = (IZR (JsDate.getUTCHours now) + IZR (JsDate.getUTCMinutes now) / 60
       + IZR (JsDate.getUTCSeconds now) / 3600
       + IZR (JsDate.getUTCMilliseconds now) / 3600000) / 24 * (2 * PI)
    /\ (forall (perf' : R) (w' : Scene),
           earth_rotation_y (animate perf' now w')
           = earth_rotation_y (animate perf now w))
    /\ (forall day : Z,
           earth_rotation_y (animate perf (JsDate.atUTC day 0 0 0 0) w) = 0
           /\ earth_rotation_y (animate perf (JsDate.atUTC day 6 0 0 0) w) = PI / 2
           /\ earth_rotation_y (animate perf (JsDate.atUTC day 12 0 0 0) w) = PI).
Proof.
  intros perf now w. split; [|split].
  - cbn. unfold utcHours. lra.
  - reflexivity.
  - intros day. cbn. rewrite !utcHours_atUTC by lia. repeat split; lra.
Qed.

(** C10.  After a frame the planet's own-rotation angle, and with it the
    angle of the night-lights shell, lies in [[0, 2 pi)]. *)
Theorem planet_rotation_in_one_turn :
  forall (perf : R) (now : JsDate.Date) (w : Scene),
    (0 <= earth_rotation_y (animate perf now w) < 2 * PI)
    /\ (0 <= nightLights_rotation_y (animate perf now w) < 2 * PI).
Proof.
  intros perf now w. cbn.
  pose proof (utcHours_range now) as [H0 H1].
  pose proof PI_RGT_0 as Hpi.
  assert (0 <= utcHours now / 24 * PI * 2 < 2 * PI); [|tauto].
  split.
  - apply Rmult_le_pos; [apply Rmult_le_pos|]; lra.
  - replace (utcHours now / 24 * PI * 2) with (utcHours now / 24 * (2 * PI)) by lra.
    rewrite <- (Rmult_1_l (2 * PI)) at 2.
    apply Rmult_lt_compat_r; lra.
Qed.

(** ** Co-registration of the night lights *)

Lemma run_coregistered fs :
  forall w, nightLights_rotation_y w = earth_rotation_y w ->
            nightLights_rotation_y (run fs w) = earth_rotation_y (run fs w).
Proof.
  induction fs as [|f fs IH]; intros w Hw; [exact Hw|].
  cbn. apply IH. reflexivity.
Qed.

(** C2.  After every frame the night-lights shell has the own-rotation angle
    of the planet surface: after one frame from any scene, and after any
    number of frames from the scene assembled at load time. *)
Theorem night_lights_coregistered :
  (forall (perf : R) (now : JsDate.Date) (w : Scene),
      nightLights_rotation_y (animate perf now w)
      = earth_rotation_y (animate perf now w))
  /\ (forall (t0 : R) (fs : list Frame),
         nightLights_rotation_y (run fs (initialScene t0))
         = earth_rotation_y (run fs (initialScene t0))).
Proof.
  split.
  - reflexivity.
  - intros t0 fs. apply run_coregistered. reflexivity.
Qed.

(** ** Integration by the clamped delta *)

Lemma clampedDelta_le t_curr t_prev : clampedDelta t_curr t_prev <= 0.1.
Proof. apply Rmin_r. Qed.


Lemma satellite_angles_step d sats :
  flat_map
    (fun sat =>
       sat_rotation_y sat
       :: match userData_satGroup sat with Some gy => [gy] | None => [] end)
    (map (animateSatellite d) sats)
  = zip_with (fun a r => a + d * r)
      (flat_map
         (fun sat =>
            sat_rotation_y sat
            :: match userData_satGroup sat with Some gy => [gy] | None => [] end)
         sats)
      (flat_map
         (fun sat =>
            userData_speed sat
            :: match userData_satGroup sat with Some _ => [0.3] | None => [] end)
         sats).
Proof.
  induction sats as [|sat sats IH]; [reflexivity|].
  destruct sat as [y sp [gy|]]; cbn; now rewrite IH.
Qed.

(** Every integrated angle advances by the frame delta times its rate. *)
Lemma integratedAngles_animate perf now w :
  integratedAngles (animate perf now w)
  = zip_with (fun a r => a + frameDelta perf w * r)
      (integratedAngles w) (integrationRates w).
Proof.
  unfold integratedAngles, integrationRates, frameDelta. cbn.
  now rewrite satellite_angles_step.
Qed.

Lemma zip_with_add_zero (l rs : list R) :
  length l = length rs -> zip_with (fun a r => a + 0 * r) l rs = l.
Proof.
  revert rs. induction l as [|a l IH]; intros [|r rs] Hlen; try discriminate; [reflexivity|].
  cbn. rewrite IH by (cbn in Hlen; lia). f_equal. lra.
Qed.

Lemma integration_lengths w :
  length (integratedAngles w) = length (integrationRates w).
Proof.
  unfold integratedAngles, integrationRates. cbn. do 3 f_equal.
  induction (satellites w) as [|sat sats IH]; [reflexivity|].
  destruct sat as [y sp [gy|]]; cbn; now rewrite ?length_app, IH.
Qed.

(** C3.  The delta of a frame is [min(t_curr - t_prev, 0.1)], where [t_prev]
    is the frame-clock time of the frame before; it is at most [0.1]; it is
    the one value by which the moon, the satellites and the starfield are
    advanced; and a frame five seconds after the previous one has delta
    [0.1]. *)
Theorem delta_is_clamped :
  forall (perf : R) (now : JsDate.Date) (w : Scene),
    let t_curr := perf / 1000 in
    let t_prev := previousTime w in
    let w' := animate perf now w in
    frameDelta perf w = Rmin (t_curr - t_prev) 0.1
    /\ frameDelta perf w <= 0.1
    /\ previousTime w' = t_curr
    /\ moonOrbit_rotation_y w' = moonOrbit_rotation_y w + frameDelta perf w * 0.08
    /\ moonMesh_rotation_y w' = moonMesh_rotation_y w + frameDelta perf w * 0.08
    /\ starfield_rotation_y w' = starfield_rotation_y w + frameDelta perf w * 0.001
    /\ satellites w' = map (animateSatellite (frameDelta perf w)) (satellites w)
    /\ integratedAngles w'
       = zip_with (fun a r => a + frameDelta perf w * r)
           (integratedAngles w) (integrationRates w)
    /\ frameDelta ((t_prev + 5) * 1000) w = 0.1.
Proof.
  intros perf now w. cbn zeta.
  repeat split; try reflexivity.
  - apply clampedDelta_le.
  - apply integratedAngles_animate.
  - unfold frameDelta, clampedDelta. apply Rmin_right. lra.
Qed.

(** ** Cloud drift *)

(** C8, as stated, fails.  One second after the page's time origin, at
    06:00:00.000 UTC, the drift term is [1 * 0.003], not
    [21600 * 0.003]; and at the same UTC instant a different reading of the
    frame clock gives a different cloud angle. *)
Lemma cloud_drift_not_from_utc_midnight :
  clouds_rotation_y (animate 1000 (JsDate.atUTC 20000 6 0 0 0) (initialScene 0))
  <> earth_rotation_y (animate 1000 (JsDate.atUTC 20000 6 0 0 0) (initialScene 0))
     + Spec.secondsSinceUTCMidnight (JsDate.atUTC 20000 6 0 0 0) * 0.003
  /\ clouds_rotation_y (animate 2000 (JsDate.atUTC 20000 6 0 0 0) (initialScene 0))
     <> clouds_rotation_y (animate 1000 (JsDate.atUTC 20000 6 0 0 0) (initialScene 0)).
Proof.
  unfold Spec.secondsSinceUTCMidnight.
  replace (JsDate.atUTC 20000 6 0 0 0 mod JsDate.msPerDay)%Z with 21600000%Z
    by reflexivity.
  cbn [animate clouds_rotation_y earth_rotation_y].
  split; lra.
Qed.

(** C8, amended.  The cloud angle written by a frame is the planet's
    own-rotation angle of that frame plus [0.003] times the frame-clock time
    in seconds ([performance.now() / 1000], counted from the page's time
    origin); it is a function of the UTC instant and of that reading, and of
    nothing else. *)
Theorem cloud_rotation_is_planet_plus_frame_clock_drift :
  forall (perf : R) (now : JsDate.Date) (w : Scene),
    clouds_rotation_y (animate perf now w)
    = earth_rotation_y (animate perf now w) + perf / 1000 * 0.003
    /\ clouds_rotation_y (animate perf now w)
       = utcHours now / 24 * (2 * PI) + perf / 1000 * 0.003
    /\ (forall w' : Scene,
           clouds_rotation_y (animate perf now w')
           = clouds_rotation_y (animate perf now w)).
Proof.
  intros perf now w. cbn. repeat split; lra.
Qed.

(** ** Frames with a delta of zero or less *)

Section SpecFloatFacts.

Variables prec emax : Z.
Local Open Scope Z_scope.









End SpecFloatFacts.

Lemma is_nan_spec x : PrimFloat.is_nan x = true <-> Prim2SF x = S754_nan.
Proof.
  unfold PrimFloat.is_nan. rewrite FloatAxioms.eqb_spec. unfold SFeqb.
  destruct (Prim2SF x) as [s|s| |s m e]; cbn.
  - split; discriminate.
  - destruct s; split; discriminate.
  - tauto.
  - rewrite Z.compare_refl, Pos.compare_cont_refl.
    destruct s; cbn; split; discriminate.
Qed.






(** ** Satellite orbits over two frames *)







(** ** The starfield *)

Section ArrayFacts.

Context {T : Type}.

Lemma nth_insert_eq (l : list T) (i : nat) (v d : T) :
  (i < length l)%nat -> nth i (<[i := v]> l) d = v.
Proof. intros H. now rewrite nth_lookup, list_lookup_insert_eq. Qed.

Lemma nth_insert_ne (l : list T) (i j : nat) (v d : T) :
  i <> j -> nth j (<[i := v]> l) d = nth j l d.
Proof. intros H. now rewrite !nth_lookup, list_lookup_insert_ne. Qed.

End ArrayFacts.

Section StarfieldFacts.

Import Starfield.

Variable A : Arith.

Lemma item3_store (a : list (num A)) (i : nat) (x y z : num A) :
  (i * 3 + 2 < length a)%nat ->
  item3 A (store A (store A (store A a (i * 3) x) (i * 3 + 1) y) (i * 3 + 2) z) i
  = (Math_fround A x, Math_fround A y, Math_fround A z).
Proof.
  intros H. unfold item3, store. f_equal; [f_equal|].
  - rewrite !nth_insert_ne by lia. apply nth_insert_eq. lia.
  - rewrite nth_insert_ne by lia. apply nth_insert_eq.
    rewrite length_insert. lia.
  - apply nth_insert_eq. rewrite !length_insert. lia.
Qed.

Lemma item3_store_other (a : list (num A)) (i j : nat) (x y z : num A) :
  j <> i ->
  item3 A (store A (store A (store A a (i * 3) x) (i * 3 + 1) y) (i * 3 + 2) z) j
  = item3 A a j.
Proof.
  intros H. unfold item3, store.
  f_equal; [f_equal|]; now rewrite !nth_insert_ne by lia.
Qed.

Lemma length_store (a : list (num A)) (i : nat) (v : num A) :
  length (store A a i v) = length a.
Proof. apply length_insert. Qed.

Lemma length_store3 (a : list (num A)) (i : nat) (x y z : num A) :
  length (store A (store A (store A a (i * 3) x) (i * 3 + 1) y) (i * 3 + 2) z)
  = length a.
Proof. unfold store. now rewrite !length_insert. Qed.

Variable rnd : nat -> num A.

Lemma starBody_invariant (n k0 i : nat) (st : Rng * Buffers A) :
  (i < n)%nat ->
  loopInvariant A rnd n k0 i st ->
  loopInvariant A rnd n k0 (S i) (starBody A rnd i st).
Proof.
  intros Hi (Hk & Hp & Hs & Hc & Hdone). destruct st as [k b].
  cbn [fst snd] in *. subst k.
  unfold starBody, Math_random.
  set (k := (k0 + 5 * i)%nat).
  set (cols := if lt A (rnd (S (S (S (S k))))) _ then _ else _).
  assert (Hcols : length cols = length (colors b)
                  /\ (forall j, j <> i -> item3 A cols j = item3 A (colors b) j)
                  /\ item3 A cols i = starColor A (rnd (S (S (S (S k)))))).
  { subst cols. unfold starColor.
    destruct (lt A _ _); [|destruct (lt A _ _)];
      (split; [apply length_store3|split;
               [intros j Hj; now apply item3_store_other|]]);
      rewrite item3_store by lia; reflexivity. }
  destruct Hcols as (Hclen & Hcother & Hcthis).
  unfold loopInvariant. cbn [fst snd positions sizes colors].
  rewrite length_store3, Hclen, length_store.
  split; [subst k; lia|]. do 3 (split; [assumption|]).
  intros j Hj. destruct (Nat.eq_dec j i) as [->|Hne].
  - replace (k0 + 5 * i + 1)%nat with (S k) by (subst k; lia).
    replace (k0 + 5 * i + 2)%nat with (S (S k)) by (subst k; lia).
    replace (k0 + 5 * i + 3)%nat with (S (S (S k))) by (subst k; lia).
    replace (k0 + 5 * i + 4)%nat with (S (S (S (S k)))) by (subst k; lia).
    fold k. rewrite item3_store by lia. unfold item1, store.
    rewrite nth_insert_eq by lia. repeat split. exact Hcthis.
  - rewrite item3_store_other by assumption. unfold item1, store.
    rewrite nth_insert_ne by congruence. rewrite Hcother by assumption.
    apply Hdone. lia.
Qed.

Lemma forLoop_invariant (n k0 : nat) :
  forall (m i : nat) (st : Rng * Buffers A),
    (i + m <= n)%nat ->
    loopInvariant A rnd n k0 i st ->
    loopInvariant A rnd n k0 (i + m) (forLoop A rnd m i st).
Proof.
  induction m as [|m IH]; intros i st Hle Hinv; cbn [forLoop].
  - now rewrite Nat.add_0_r.
  - replace (i + S m)%nat with (S i + m)%nat by lia.
    apply IH; [lia|]. apply starBody_invariant; [lia|exact Hinv].
Qed.

Lemma createStarfieldN_invariant (n k0 : nat) :
  loopInvariant A rnd n k0 n (createStarfieldN A rnd n k0).
Proof.
  unfold createStarfieldN.
  apply (forLoop_invariant n k0 n 0%nat); [lia|].
  unfold loopInvariant, newFloat32Array.
  cbn [fst snd positions sizes colors].
  rewrite !repeat_length. split; [lia|]. do 3 (split; [reflexivity|]).
  intros j Hj. lia.
Qed.


(** Star [i] is the one stored from draws [5 i .. 5 i + 4] of the loop. *)
Lemma createStarfield_star (i : nat) :
  (i < starCount)%nat ->
  item3 A (positions (createStarfield A rnd)) i
  = starPosition A (rnd (5 * i)%nat) (rnd (5 * i + 1)%nat) (rnd (5 * i + 2)%nat)
  /\ item1 A (sizes (createStarfield A rnd)) i = starSize A (rnd (5 * i + 3)%nat)
  /\ item3 A (colors (createStarfield A rnd)) i
     = starColor A (rnd (5 * i + 4)%nat).
Proof.
  intros Hi.
  destruct (createStarfieldN_invariant starCount 0%nat)
    as (_ & _ & _ & _ & Hstars).
  exact (Hstars i Hi).
Qed.

End StarfieldFacts.

(** *** Distances under rounding *)










Section RoundedStar.

Variables fl fround Math_sin Math_cos Math_acos : R -> R.

Hypothesis fl_error : forall x : R, Rabs x <= 1000 -> Rabs (fl x - x) <= 1e-12.
Hypothesis fround_error :
  forall x : R, Rabs x <= 500 -> Rabs (fround x - x) <= 2e-5.
Hypothesis sin_error : forall x : R, Rabs (Math_sin x - sin x) <= 1e-9.
Hypothesis cos_error : forall x : R, Rabs (Math_cos x - cos x) <= 1e-9.






End RoundedStar.

(** *** Sizes under rounding *)

Section RoundedSize.

Variables fl fround : R -> R.

Hypothesis fl_error : forall x : R, Rabs x <= 1000 -> Rabs (fl x - x) <= 1e-12.
Hypothesis fround_error_small :
  forall x : R, Rabs x <= 2 -> Rabs (fround x - x) <= 1e-7.


End RoundedSize.

(** *** Colors on binary64 *)

Lemma binary64_starColor (Math_sin Math_cos Math_acos : float -> float)
    (temp : float) :
  Starfield.starColor (binary64Arith Math_sin Math_cos Math_acos) temp
  = if PrimFloat.ltb temp 0.15 then StoredColor.warm
    else if PrimFloat.ltb temp 0.3 then StoredColor.cool
    else StoredColor.white.
Proof.
  unfold Starfield.starColor.
  change (Starfield.lt (binary64Arith Math_sin Math_cos Math_acos))
    with PrimFloat.ltb.
  replace (Starfield.lit (binary64Arith Math_sin Math_cos Math_acos) 0.15)
    with 0.15%float by (vm_compute; reflexivity).
  replace (Starfield.lit (binary64Arith Math_sin Math_cos Math_acos) 0.3)
    with 0.3%float by (vm_compute; reflexivity).
  destruct (PrimFloat.ltb temp 0.15); [|destruct (PrimFloat.ltb temp 0.3)];
    vm_compute; reflexivity.
Qed.

(** The stored colors differ from one another and from the triples of the
    source text. *)
Lemma stored_colors_distinct :
  StoredColor.warm <> StoredColor.cool
  /\ StoredColor.warm <> StoredColor.white
  /\ StoredColor.cool <> StoredColor.white.
Proof.
  repeat split; intros H;
    apply (f_equal (fun c => (PrimFloat.eqb (fst (fst c)) 1,
                             PrimFloat.eqb (snd c) 1))) in H;
    vm_compute in H; discriminate.
Qed.

Lemma stored_colors_value :
  StoredColor.warm = (1, 0.85000002384185791, 0.69999998807907104)%float
  /\ StoredColor.cool = (0.69999998807907104, 0.80000001192092896, 1)%float
  /\ StoredColor.white = (1, 1, 1)%float.
Proof. repeat split; vm_compute; reflexivity. Qed.

(** The color of a star on binary64, from its fifth draw. *)
Lemma binary64_star_color (Math_sin Math_cos Math_acos : float -> float)
    (rnd : nat -> float) (i : nat) :
  (i < Starfield.starCount)%nat ->
  Starfield.item3 (binary64Arith Math_sin Math_cos Math_acos)
    (Starfield.colors
       (Starfield.createStarfield (binary64Arith Math_sin Math_cos Math_acos)
          rnd)) i
  = if PrimFloat.ltb (rnd (5 * i + 4)%nat) 0.15 then StoredColor.warm
    else if PrimFloat.ltb (rnd (5 * i + 4)%nat) 0.3 then StoredColor.cool
    else StoredColor.white.
Proof.
  intros Hi.
  destruct (createStarfield_star (binary64Arith Math_sin Math_cos Math_acos)
              rnd i Hi) as (_ & _ & Hc).
  rewrite Hc. apply binary64_starColor.
Qed.




(** ** The night terminator *)

Lemma smooth_poly_strict (a b : R) :
  0 <= a -> a < b -> b <= 1 -> a * a * (3 - 2 * a) < b * b * (3 - 2 * b).
Proof.
  intros Ha Hab Hb.
  assert (H : 0 < (b - a) * (a * (3 - 2 * a - b) + b * (3 - 2 * b - a))).
  { apply Rmult_lt_0_compat; [lra|].
    assert (0 <= a * (3 - 2 * a - b)) by (apply Rmult_le_pos; lra).
    assert (0 < b * (3 - 2 * b - a)) by (apply Rmult_lt_0_compat; lra).
    lra. }
  lra.
Qed.

(** Two arguments of the cubic at least [0.05] apart: the values are at
    least [0.007] apart. *)
Lemma smooth_poly_step (a b : R) :
  0 <= a -> a + 0.05 <= b -> b <= 1 ->
  a * a * (3 - 2 * a) + 0.007 <= b * b * (3 - 2 * b).
Proof.
  intros Ha Hab Hb.
  assert (Hg : 0 <= 6 * a * (1 - b)) by (apply Rmult_le_pos; lra).
  assert (Hh : 0.05 * 0.05 * (3 - 2 * 0.05)
               <= (b - a) * (b - a) * (3 - 2 * (b - a))).
  { destruct (Rle_lt_or_eq_dec 0.05 (b - a) ltac:(lra)) as [Hlt|Heq].
    - left. apply smooth_poly_strict; lra.
    - rewrite <- Heq. lra. }
  assert (Hd : b * b * (3 - 2 * b) - a * a * (3 - 2 * a)
               = (b - a) * (6 * a * (1 - b))
                 + (b - a) * (b - a) * (3 - 2 * (b - a))) by ring.
  assert (Hp : 0 <= (b - a) * (6 * a * (1 - b)))
    by (apply Rmult_le_pos; lra).
  lra.
Qed.

Lemma nightFactor_ramp (x : R) :
  -0.3 <= x <= -0.1 ->
  nightFactor x
  = ((-0.1 - x) * 5) * ((-0.1 - x) * 5) * (3 - 2 * ((-0.1 - x) * 5)).
Proof.
  intros Hx. unfold nightFactor, GLSL.smoothstep, GLSL.clamp.
  replace ((x - -0.1) / (-0.3 - -0.1)) with ((-0.1 - x) * 5) by lra.
  rewrite Rmax_left by lra. rewrite Rmin_left by lra. reflexivity.
Qed.

(** C6 as stated does not hold of the factor computed on floats: it is flat
    at [1] at points strictly inside the band.  On 32-bit floats it is [1]
    at the two floats that follow [-0.3] towards [-0.1], and on binary64 at
    [-0.2999999999] and [-0.2999999998]. *)
Lemma night_factor_flat_inside_the_band :
  (let x := (-0.29999998211860657)%float in
   let y := (-0.29999995231628418)%float in
   PrimFloat.ltb (-0.3) x = true /\ PrimFloat.ltb x y = true
   /\ PrimFloat.ltb y (-0.1) = true
   /\ GLSLFloat.binary32 x = x /\ GLSLFloat.binary32 y = y
   /\ GLSLFloat.nightFactor GLSLFloat.binary32 x = 1%float
   /\ GLSLFloat.nightFactor GLSLFloat.binary32 y = 1%float)
  /\ (let x := (-0.2999999999)%float in
      let y := (-0.2999999998)%float in
      PrimFloat.ltb (-0.3) x = true /\ PrimFloat.ltb x y = true
      /\ PrimFloat.ltb y (-0.1) = true
      /\ GLSLFloat.nightFactor GLSLFloat.binary64 x = 1%float
      /\ GLSLFloat.nightFactor GLSLFloat.binary64 y = 1%float).
Proof. vm_compute. repeat split. Qed.

(** C6, amended.  The terminator factor of the night-lights fragment shader
    is [smoothstep(-0.1, -0.3, sunFacing)] with [sunFacing] the dot product
    of the world normal and the sun direction; it is [0] for
    [sunFacing >= -0.1], [1] for [sunFacing <= -0.3] and between [0] and [1]
    everywhere.  Inside the band it ramps from [0] to [1] as [sunFacing] goes
    from [-0.1] down to [-0.3]: the factor at a point exceeds by at least
    [0.007] the factor at any point at least [0.01] nearer to [-0.1].  No
    strict monotonicity between neighbouring values is stated. *)
Theorem night_factor_terminator :
  (forall (vNormalW sunDirection : vec3) (nightColor : vec4),
      alpha (nightLightsFragment vNormalW sunDirection nightColor)
      = GLSL.smoothstep (-0.1) (-0.3) (GLSL.dot vNormalW sunDirection)
        * vx (rgb nightColor))
  /\ (forall sunFacing : R,
         nightFactor sunFacing = GLSL.smoothstep (-0.1) (-0.3) sunFacing)
  /\ (forall sunFacing : R, -0.1 <= sunFacing -> nightFactor sunFacing = 0)
  /\ (forall sunFacing : R, sunFacing <= -0.3 -> nightFactor sunFacing = 1)
  /\ (forall sunFacing : R, 0 <= nightFactor sunFacing <= 1)
  /\ (forall x y : R,
         -0.3 <= x -> x + 0.01 <= y -> y <= -0.1 ->
         nightFactor y + 0.007 <= nightFactor x).
Proof.
  assert (Hday : forall x : R, -0.1 <= x -> nightFactor x = 0).
  { intros x Hx. unfold nightFactor, GLSL.smoothstep, GLSL.clamp.
    replace ((x - -0.1) / (-0.3 - -0.1)) with ((-0.1 - x) * 5) by lra.
    rewrite Rmax_right by lra. rewrite Rmin_left by lra. lra. }
  assert (Hnight : forall x : R, x <= -0.3 -> nightFactor x = 1).
  { intros x Hx. unfold nightFactor, GLSL.smoothstep, GLSL.clamp.
    replace ((x - -0.1) / (-0.3 - -0.1)) with ((-0.1 - x) * 5) by lra.
    rewrite Rmax_left by lra. rewrite Rmin_right by lra. lra. }
  split; [reflexivity|]. split; [reflexivity|].
  split; [exact Hday|]. split; [exact Hnight|]. split.
  - intros x. destruct (Rle_dec (-0.1) x) as [Hx|Hx].
    { rewrite Hday by exact Hx. lra. }
    destruct (Rle_dec x (-0.3)) as [Hx'|Hx'].
    { rewrite Hnight by exact Hx'. lra. }
    rewrite nightFactor_ramp by lra.
    set (t := (-0.1 - x) * 5).
    assert (Ht : 0 < t < 1) by (subst t; lra).
    pose proof (smooth_poly_strict 0 t) as Hlow.
    pose proof (smooth_poly_strict t 1) as Hhigh. lra.
  - intros x y Hx Hxy Hy.
    rewrite (nightFactor_ramp x), (nightFactor_ramp y) by lra.
    apply smooth_poly_step; lra.
Qed.

Lemma night_factor_terminator_witness :
  nightFactor 0 = 0 /\ nightFactor (-1) = 1
  /\ nightFactor (-0.15) + 0.007 <= nightFactor (-0.25).
Proof.
  destruct night_factor_terminator as (_ & _ & Hday & Hnight & _ & Hramp).
  split; [apply Hday; lra|]. split; [apply Hnight; lra|].
  apply Hramp; lra.
Defined.

(** ** The atmosphere glow *)

Lemma pow_monotone (x1 x2 y : R) :
  0 <= y -> 0 <= x1 -> x1 <= x2 -> GLSL.pow x1 y <= GLSL.pow x2 y.
Proof.
  intros Hy H1 H12. unfold GLSL.pow.
  destruct (Rlt_dec 0 x1) as [Hp1|Hn1].
  - destruct (Rlt_dec 0 x2) as [_|Hn2]; [|lra].
    apply Rle_Rpower_l; lra.
  - destruct (Rlt_dec 0 x2) as [_|_]; [|lra].
    left. apply exp_pos.
Qed.

(** The model of [pow] at exponent 3.5 is the real power: [x^3 * sqrt x]. *)
Lemma pow_3_5 (x : R) : 0 <= x -> GLSL.pow x 3.5 = x * x * x * sqrt x.
Proof.
  intros Hx. unfold GLSL.pow. destruct (Rlt_dec 0 x) as [Hp|Hn].
  - replace 3.5 with (INR 3 + / 2) by (cbn; lra).
    rewrite Rpower_plus, Rpower_pow, Rpower_sqrt by assumption. cbn. ring.
  - replace x with 0 by lra. rewrite sqrt_0. ring.
Qed.

(** C7.  The alpha written by the atmosphere fragment shader is
    [pow(f, 3.5) * 0.65] with [f = 1 - dot(normal, viewDir)], and it is
    non-decreasing in [f] on [[0, 1]]. *)
Theorem atmosphere_alpha_monotone :
  (forall vNormal vViewDir : vec3,
      alpha (atmosphereFragment vNormal vViewDir)
      = GLSL.pow (1 - GLSL.dot vNormal vViewDir) 3.5 * 0.65)
  /\ (forall f1 f2 : R,
         0 <= f1 -> f1 <= f2 -> f2 <= 1 ->
         GLSL.pow f1 3.5 * 0.65 <= GLSL.pow f2 3.5 * 0.65)
  /\ (forall n1 v1 n2 v2 : vec3,
         0 <= 1 - GLSL.dot n1 v1 ->
         1 - GLSL.dot n1 v1 <= 1 - GLSL.dot n2 v2 ->
         1 - GLSL.dot n2 v2 <= 1 ->
         alpha (atmosphereFragment n1 v1) <= alpha (atmosphereFragment n2 v2)).
Proof.
  assert (Hmono : forall f1 f2 : R,
             0 <= f1 -> f1 <= f2 -> f2 <= 1 ->
             GLSL.pow f1 3.5 * 0.65 <= GLSL.pow f2 3.5 * 0.65).
  { intros f1 f2 H0 H12 _.
    apply Rmult_le_compat_r; [lra|]. apply pow_monotone; lra. }
  split; [reflexivity|]. split; [exact Hmono|].
  intros n1 v1 n2 v2 H0 H12 H1. cbn [atmosphereFragment alpha].
  now apply Hmono.
Qed.

Lemma atmosphere_alpha_monotone_witness :
  GLSL.pow 0 3.5 * 0.65 <= GLSL.pow 1 3.5 * 0.65
  /\ alpha (atmosphereFragment (Vec3 0 0 1) (Vec3 0 0 1))
     <= alpha (atmosphereFragment (Vec3 0 0 1) (Vec3 1 0 0)).
Proof.
  destruct atmosphere_alpha_monotone as (_ & Hf & Hfrag).
  split; [apply Hf; lra|].
  apply Hfrag; unfold GLSL.dot; cbn [vx vy vz]; lra.
Defined.

(** ** Concrete frames on binary64 *)

Section Binary64Frames.

Local Open Scope float_scope.

Let day : Z := 20000.

(** At 12:00, 06:00 and 00:00 UTC the planet angle is [Math.PI],
    [Math.PI / 2] and [0]. *)
Example binary64_noon :
  Binary64.earth_rotation_y
    (Binary64.animate 1000 (JsDate.atUTC day 12 0 0 0) (Binary64.initialScene 0))
  = Binary64.Math_PI.
Proof. vm_compute. reflexivity. Qed.

Example binary64_six :
  Binary64.earth_rotation_y
    (Binary64.animate 1000 (JsDate.atUTC day 6 0 0 0) (Binary64.initialScene 0))
  = Binary64.Math_PI / 2.
Proof. vm_compute. reflexivity. Qed.

Example binary64_midnight :
  Binary64.earth_rotation_y
    (Binary64.animate 1000 (JsDate.atUTC day 0 0 0 0) (Binary64.initialScene 0))
  = 0.
Proof. vm_compute. reflexivity. Qed.

(** A frame five seconds after the previous one has delta [0.1]. *)
Example binary64_stall : Binary64.clampedDelta 6 1 = 0.1.
Proof. vm_compute. reflexivity. Qed.

(** A frame stamped one second before the previous one moves the moon
    back. *)
Example binary64_negative_delta :
  Binary64.moonOrbit_rotation_y
    (Binary64.animate 1000 (JsDate.atUTC day 6 0 0 0) (Binary64.initialScene 2))
  = -0.08.
Proof. vm_compute. reflexivity. Qed.

(** One second after the time origin, at 06:00 UTC, the clouds are
    [1 * 0.003] ahead of the planet. *)
Example binary64_clouds :
  Binary64.clouds_rotation_y
    (Binary64.animate 1000 (JsDate.atUTC day 6 0 0 0) (Binary64.initialScene 0))
  = Binary64.Math_PI / 2 + 0.003.
Proof. vm_compute. reflexivity. Qed.

(** A satellite at angle [10] stays above a full turn. *)
Example binary64_satellite :
  (2 * Binary64.Math_PI
   <? Binary64.sat_rotation_y
        (Binary64.animateSatellite 0.1
           (Binary64.animateSatellite 0.1 (Binary64.mkSatellite 10 0.5 (Some 6)))))
  = true.
Proof. vm_compute. reflexivity. Qed.

End Binary64Frames.

(* ------------------------------------------------------------------ *)
(** * Further properties of the code *)

(** ** Runs of frames *)

Lemma run_cons f fs w :
  run (f :: fs) w = run fs (animate (perfNow f) (dateNow f) w).
Proof. reflexivity. Qed.

Lemma integrationRates_animate perf now w :
  integrationRates (animate perf now w) = integrationRates w.
Proof.
  unfold integrationRates. cbn [animate satellites]. do 3 f_equal.
  induction (satellites w) as [|sat sats IH]; [reflexivity|].
  destruct sat as [y sp [gy|]]; cbn; now rewrite IH.
Qed.

Lemma zip_with_add_add (d1 d2 : R) (l rs : list R) :
  zip_with (fun a r => a + d2 * r) (zip_with (fun a r => a + d1 * r) l rs) rs
  = zip_with (fun a r => a + (d1 + d2) * r) l rs.
Proof.
  revert rs. induction l as [|a l IH]; intros [|r rs]; try reflexivity.
  cbn. rewrite IH. f_equal. lra.
Qed.

Lemma integratedAngles_run fs :
  forall w,
    integratedAngles (run fs w)
    = zip_with (fun a r => a + sumR (runDeltas fs (previousTime w)) * r)
        (integratedAngles w) (integrationRates w).
Proof.
  induction fs as [|f fs IH]; intros w.
  - change (run [] w) with w.
    change (sumR (runDeltas [] (previousTime w))) with 0.
    symmetry. apply zip_with_add_zero, integration_lengths.
  - rewrite run_cons, IH, integratedAngles_animate, integrationRates_animate.
    rewrite zip_with_add_add. reflexivity.
Qed.

Lemma sumR_forward fs :
  forall t_prev, forwardClock fs t_prev -> 0 <= sumR (runDeltas fs t_prev).
Proof.
  induction fs as [|f fs IH]; intros t_prev Hf.
  - cbn. lra.
  - destruct Hf as [Hle Hrest]. cbn [runDeltas sumR fold_right].
    specialize (IH _ Hrest). unfold sumR in IH.
    assert (0 <= clampedDelta (perfNow f / 1000) t_prev).
    { unfold clampedDelta. apply Rmin_glb; lra. }
    lra.
Qed.

Lemma zip_with_advance_le (d : R) (l rs : list R) :
  0 <= d -> Forall (Rle 0) rs -> length l = length rs ->
  Forall2 Rle l (zip_with (fun a r => a + d * r) l rs).
Proof.
  intros Hd Hrs. revert l.
  induction Hrs as [|r rs Hr Hrs IH]; intros [|a l] Hlen; try discriminate;
    cbn; constructor.
  - assert (0 <= d * r) by (apply Rmult_le_pos; assumption). lra.
  - apply IH. cbn in Hlen. lia.
Qed.

(** X3.  When the frame clock never goes backwards, no integrated angle of a
    scene whose satellites have non-negative speeds ever decreases over a
    run. *)
Theorem forward_clock_never_turns_back :
  forall (fs : list Frame) (w : Scene),
    forwardClock fs (previousTime w) ->
    Forall (fun sat => 0 <= userData_speed sat) (satellites w) ->
    Forall2 Rle (integratedAngles w) (integratedAngles (run fs w))
    /\ moonOrbit_rotation_y w <= moonOrbit_rotation_y (run fs w)
    /\ starfield_rotation_y w <= starfield_rotation_y (run fs w).
Proof.
  intros fs w Hf Hsp.
  assert (Hall : Forall2 Rle (integratedAngles w) (integratedAngles (run fs w))).
  { rewrite integratedAngles_run.
    apply zip_with_advance_le;
      [now apply sumR_forward| |apply integration_lengths].
    unfold integrationRates. repeat (constructor; [lra|]).
    induction Hsp as [|sat sats Hsat _ IH]; [constructor|].
    cbn [flat_map]. apply Forall_app. split; [|exact IH].
    destruct (userData_satGroup sat); repeat (constructor; try lra); exact Hsat. }
  split; [exact Hall|].
  unfold integratedAngles in Hall.
  inversion Hall as [|? ? ? ? Ho Hall1]; subst.
  inversion Hall1 as [|? ? ? ? _ Hall2]; subst.
  inversion Hall2 as [|? ? ? ? Hst _]; subst.
  split; assumption.
Qed.

Lemma forward_clock_never_turns_back_witness :
  moonOrbit_rotation_y (initialScene 0)
  <= moonOrbit_rotation_y (run [mkFrame 50 0%Z; mkFrame 5000 0%Z] (initialScene 0)).
Proof.
  apply (forward_clock_never_turns_back
           [mkFrame 50 0%Z; mkFrame 5000 0%Z] (initialScene 0)).
  - cbn. repeat split; lra.
  - cbn. repeat constructor; cbn; lra.
Defined.

(** ** Invariants over runs *)

Lemma run_app fs gs w : run (fs ++ gs) w = run gs (run fs w).
Proof. unfold run. apply fold_left_app. Qed.

(** X4.  The moon's spin and its orbit angle advance together: their
    difference is the same after any run as before it, so from the scene
    assembled at load time the two angles are equal after every frame. *)
Theorem moon_spin_follows_orbit :
  (forall (fs : list Frame) (w : Scene),
      moonMesh_rotation_y (run fs w) - moonOrbit_rotation_y (run fs w)
      = moonMesh_rotation_y w - moonOrbit_rotation_y w)
  /\ (forall (t0 : R) (fs : list Frame),
         moonMesh_rotation_y (run fs (initialScene t0))
         = moonOrbit_rotation_y (run fs (initialScene t0))).
Proof.
  assert (H : forall (fs : list Frame) (w : Scene),
             moonMesh_rotation_y (run fs w) - moonOrbit_rotation_y (run fs w)
             = moonMesh_rotation_y w - moonOrbit_rotation_y w).
  { induction fs as [|f fs IH]; intros w; [reflexivity|].
    rewrite run_cons, IH. cbn [animate moonMesh_rotation_y moonOrbit_rotation_y].
    lra. }
  split; [exact H|].
  intros t0 fs. specialize (H fs (initialScene t0)).
  cbn [initialScene moonMesh_rotation_y moonOrbit_rotation_y] in H. lra.
Qed.

Lemma run64_invariant (P : Binary64.Scene -> Prop) :
  (forall perf now w, P w -> P (Binary64.animate perf now w)) ->
  forall fs w, P w -> P (run64 fs w).
Proof.
  intros Hstep. induction fs as [|f fs IH]; intros w Hw; [exact Hw|].
  cbn. apply IH, Hstep, Hw.
Qed.

(** X5.  On binary64, after any run of frames from the scene assembled at
    load time, the night-lights angle is the planet angle and the moon's spin
    is its orbit angle, bit for bit: each pair is produced by the same
    operations on the same values. *)
Theorem binary64_pairs_stay_identical :
  forall (t0 : float) (fs : list Frame64),
    Binary64.nightLights_rotation_y (run64 fs (Binary64.initialScene t0))
    = Binary64.earth_rotation_y (run64 fs (Binary64.initialScene t0))
    /\ Binary64.moonMesh_rotation_y (run64 fs (Binary64.initialScene t0))
       = Binary64.moonOrbit_rotation_y (run64 fs (Binary64.initialScene t0)).
Proof.
  intros t0 fs.
  apply (run64_invariant
           (fun w => Binary64.nightLights_rotation_y w = Binary64.earth_rotation_y w
                     /\ Binary64.moonMesh_rotation_y w
                        = Binary64.moonOrbit_rotation_y w)).
  - intros perf now w [_ Hm]. split; [reflexivity|].
    cbn [Binary64.animate Binary64.moonMesh_rotation_y
         Binary64.moonOrbit_rotation_y].
    now rewrite Hm.
  - split; reflexivity.
Qed.

Lemma satellites_animate_speeds d sats :
  map userData_speed (map (animateSatellite d) sats) = map userData_speed sats.
Proof. rewrite map_map. apply map_ext. reflexivity. Qed.

(** X6.  Frames never add or remove a satellite, never change a satellite's
    speed and never give or take its body: after any run the satellites are
    as many as before, with the same speeds in the same order, and the rates
    of all integrated angles are unchanged. *)
Theorem frames_keep_the_satellites :
  forall (fs : list Frame) (w : Scene),
    length (satellites (run fs w)) = length (satellites w)
    /\ map userData_speed (satellites (run fs w))
       = map userData_speed (satellites w)
    /\ map hasBody (satellites (run fs w)) = map hasBody (satellites w)
    /\ integrationRates (run fs w) = integrationRates w.
Proof.
  induction fs as [|f fs IH]; intros w; [repeat split|].
  rewrite run_cons.
  destruct (IH (animate (perfNow f) (dateNow f) w)) as (Hl & Hs & Hb & Hr).
  rewrite Hl, Hs, Hb, Hr. cbn [animate satellites].
  rewrite length_map, satellites_animate_speeds, map_map.
  repeat split.
  - apply map_ext. intros sat. unfold hasBody. cbn.
    now destruct (userData_satGroup sat).
  - apply integrationRates_animate.
Qed.

(** ** The sun direction *)

Lemma normalize_zero :
  Vector3.normalize (Vec3 0 0 0) = Vec3 0 0 0.
Proof.
  unfold Vector3.normalize, Vector3.length. cbn [vx vy vz].
  replace (0 * 0 + 0 * 0 + 0 * 0) with 0 by ring. rewrite sqrt_0.
  destruct (Req_dec_T 0 0) as [_|H]; [|contradiction].
  unfold Vector3.divideScalar. cbn [vx vy vz]. f_equal; lra.
Qed.

Lemma sunLight_position_run fs :
  forall w, sunLight_position (run fs w) = sunLight_position w.
Proof.
  induction fs as [|f fs IH]; intros w; [reflexivity|].
  rewrite run_cons, IH. reflexivity.
Qed.

Lemma sunDirection_run fs f w :
  nightLights_sunDirection (run (fs ++ [f]) w)
  = Vector3.normalize (sunLight_position w).
Proof.
  rewrite run_app. cbn [run fold_left animate nightLights_sunDirection].
  now rewrite sunLight_position_run.
Qed.

Lemma sqrt_825_bounds : 28.7228 < sqrt 825 < 28.7229.
Proof.
  split.
  - rewrite <- (sqrt_square 28.7228) by lra. apply sqrt_lt_1_alt. lra.
  - rewrite <- (sqrt_square 28.7229) by lra. apply sqrt_lt_1_alt. lra.
Qed.

(** X7.  Frames never move the sun light, and every frame hands the
    night-lights shader the light's position normalized; a light at the
    origin gives the zero vector.  From the scene assembled at load time,
    with the light at (20, 5, 20), the uniform after any run of one frame or
    more points along the bisector of X and Z, raised towards Y: its X and Z
    components are equal and lie between 0.6963 and 0.6964, its Y component
    lies between 0.1740 and 0.1741. *)
Theorem sun_direction_tracks_the_light :
  (forall (fs : list Frame) (w : Scene),
      sunLight_position (run fs w) = sunLight_position w)
  /\ (forall (fs : list Frame) (f : Frame) (w : Scene),
         nightLights_sunDirection (run (fs ++ [f]) w)
         = Vector3.normalize (sunLight_position w))
  /\ (forall (perf : R) (now : JsDate.Date) (w : Scene),
         sunLight_position w = Vec3 0 0 0 ->
         nightLights_sunDirection (animate perf now w) = Vec3 0 0 0)
  /\ (forall (t0 : R) (fs : list Frame) (f : Frame),
         let d := nightLights_sunDirection (run (fs ++ [f]) (initialScene t0)) in
         sunLight_position (run (fs ++ [f]) (initialScene t0)) = Vec3 20 5 20
         /\ vx d = vz d
         /\ 0.6963 <= vx d <= 0.6964
         /\ 0.1740 <= vy d <= 0.1741).
Proof.
  split; [|split; [|split]].
  - intros fs w. apply sunLight_position_run.
  - intros fs f w. apply sunDirection_run.
  - intros perf now w Hz. cbn [animate nightLights_sunDirection].
    rewrite Hz. apply normalize_zero.
  - intros t0 fs f d. subst d.
    rewrite sunLight_position_run, sunDirection_run.
    cbn [initialScene sunLight_position].
    assert (H825 : Vector3.length (Vec3 20 5 20) = sqrt 825).
    { unfold Vector3.length. cbn [vx vy vz]. f_equal. lra. }
    pose proof sqrt_825_bounds as Hs.
    unfold Vector3.normalize. rewrite H825.
    destruct (Req_dec_T (sqrt 825) 0) as [H0|_]; [lra|].
    unfold Vector3.divideScalar. cbn [vx vy vz].
    split; [reflexivity|]. split; [reflexivity|].
    set (s := sqrt 825) in *.
    assert (Hx : 20 / s * s = 20) by (field; lra).
    assert (Hy : 5 / s * s = 5) by (field; lra).
    split; split; nra.
Qed.

Lemma sun_direction_tracks_the_light_witness :
  nightLights_sunDirection
    (animate 1000 0%Z (mkScene 0 0 0 (Vec3 1 0 0) (Vec3 0 0 0) 0 0 0 [] 0))
  = Vec3 0 0 0.
Proof.
  apply (proj1 (proj2 (proj2 sun_direction_tracks_the_light))).
  reflexivity.
Defined.

(** ** The planet angle as a fraction of the UTC day *)

Lemma day_milliseconds (now : Z) :
  (JsDate.getUTCHours now * 3600000 + JsDate.getUTCMinutes now * 60000
   + JsDate.getUTCSeconds now * 1000 + JsDate.getUTCMilliseconds now
   = now mod JsDate.msPerDay)%Z.
Proof.
  unfold JsDate.getUTCHours, JsDate.getUTCMinutes, JsDate.getUTCSeconds,
    JsDate.getUTCMilliseconds, JsDate.msPerHour, JsDate.msPerMinute,
    JsDate.msPerSecond, JsDate.msPerDay.
  Z.to_euclidean_division_equations. lia.
Qed.

Lemma utcHours_day_fraction (now : Z) :
  utcHours now = IZR (now mod JsDate.msPerDay) / 3600000.
Proof.
  rewrite <- day_milliseconds. unfold utcHours.
  rewrite !plus_IZR, !mult_IZR. lra.
Qed.

Lemma earth_angle_day_fraction perf now w :
  earth_rotation_y (animate perf now w)
  = 2 * PI * (IZR (now mod JsDate.msPerDay) / 86400000).
Proof.
  cbn [animate earth_rotation_y]. rewrite utcHours_day_fraction. lra.
Qed.

(** X8.  The planet angle is one full turn times the fraction of the UTC day
    that has elapsed: [2 pi * (T mod 86400000) / 86400000].  It has period
    exactly one day, and within a day it grows by [2 pi / 86400000] per
    millisecond. *)
Theorem planet_angle_is_day_fraction :
  forall (perf : R) (now : JsDate.Date) (w : Scene),
    earth_rotation_y (animate perf now w)
    = 2 * PI * (IZR (now mod 86400000) / 86400000)
    /\ (forall days : Z,
           earth_rotation_y (animate perf (now + days * 86400000)%Z w)
           = earth_rotation_y (animate perf now w))
    /\ (forall dt : Z,
           (0 <= dt)%Z -> (now mod 86400000 + dt < 86400000)%Z ->
           earth_rotation_y (animate perf (now + dt)%Z w)
           = earth_rotation_y (animate perf now w)
             + 2 * PI * (IZR dt / 86400000)).
Proof.
  intros perf now w. split; [|split].
  - apply earth_angle_day_fraction.
  - intros days. rewrite !earth_angle_day_fraction.
    unfold JsDate.msPerDay. now rewrite Z.mod_add by lia.
  - intros dt Hdt Hday. rewrite !earth_angle_day_fraction.
    unfold JsDate.msPerDay.
    replace ((now + dt) mod 86400000)%Z with (now mod 86400000 + dt)%Z.
    + rewrite plus_IZR. lra.
    + pose proof (Z.mod_pos_bound now 86400000).
      pose proof (Z.div_mod now 86400000).
      apply Z.mod_unique with (q := (now / 86400000)%Z); lia.
Qed.

Lemma planet_angle_is_day_fraction_witness :
  earth_rotation_y (animate 0 (JsDate.atUTC 20000 6 0 0 0 + 3600000)%Z (initialScene 0))
  = earth_rotation_y (animate 0 (JsDate.atUTC 20000 6 0 0 0) (initialScene 0))
    + 2 * PI * (IZR 3600000 / 86400000).
Proof.
  apply (planet_angle_is_day_fraction 0 (JsDate.atUTC 20000 6 0 0 0)
           (initialScene 0)); vm_compute; congruence.
Defined.

(** ** The textual UTC clock *)

Section ClockFacts.

Import String Ascii ClockDisplay.

Lemma pad2_checked :
  forallb isTwoDigitsOf (map Z.of_nat (seq 0 60)) = true.
Proof. vm_compute. reflexivity. Qed.

Lemma pad2_two_digits (n : Z) :
  (0 <= n < 60)%Z ->
  exists a b : ascii,
    pad2 n = String a (String b EmptyString)
    /\ digitValue a = Some (n / 10)%Z /\ digitValue b = Some (n mod 10)%Z.
Proof.
  intros Hn.
  assert (Hin : In n (map Z.of_nat (seq 0 60))).
  { apply in_map_iff. exists (Z.to_nat n). split; [lia|].
    apply in_seq. lia. }
  pose proof (proj1 (forallb_forall _ _) pad2_checked n Hin) as Hc.
  unfold isTwoDigitsOf in Hc.
  destruct (pad2 n) as [|a [|b [|c rest]]]; try discriminate.
  destruct (digitValue a) as [x|] eqn:Ea; [|discriminate].
  destruct (digitValue b) as [y|] eqn:Eb; [|discriminate].
  apply andb_prop in Hc as [Hx Hy].
  apply Z.eqb_eq in Hx, Hy. subst x y.
  exists a, b. repeat split; assumption.
Qed.

(** X9.  For every instant the clock text is "UTC HH:MM:SS": twelve
    characters, the prefix "UTC ", colons at positions 6 and 9, and three
    two-digit fields that read back as the UTC hours, minutes and seconds of
    the instant.  A page without the clock element stays without it. *)
Theorem clock_text_round_trip :
  forall now : JsDate.Date,
    String.length (clockText now) = 12%nat
    /\ substring 0 4 (clockText now) = "UTC "%string
    /\ get 6 (clockText now) = Some ":"%char
    /\ get 9 (clockText now) = Some ":"%char
    /\ twoDigitsAt (clockText now) 4 = Some (JsDate.getUTCHours now)
    /\ twoDigitsAt (clockText now) 7 = Some (JsDate.getUTCMinutes now)
    /\ twoDigitsAt (clockText now) 10 = Some (JsDate.getUTCSeconds now)
    /\ updateClock None now = None.
Proof.
  intros now.
  pose proof (getUTCHours_range now) as Hh.
  pose proof (getUTCMinutes_range now) as Hm.
  pose proof (getUTCSeconds_range now) as Hs.
  destruct (pad2_two_digits (JsDate.getUTCHours now)) as (h1 & h2 & Eh & Hh1 & Hh2);
    [lia|].
  destruct (pad2_two_digits (JsDate.getUTCMinutes now)) as (m1 & m2 & Em & Hm1 & Hm2);
    [lia|].
  destruct (pad2_two_digits (JsDate.getUTCSeconds now)) as (s1 & s2 & Es & Hs1 & Hs2);
    [lia|].
  unfold clockText. fold (pad2 (JsDate.getUTCHours now)).
  fold (pad2 (JsDate.getUTCMinutes now)). fold (pad2 (JsDate.getUTCSeconds now)).
  rewrite Eh, Em, Es.
  unfold twoDigitsAt. cbn [append String.length substring get].
  rewrite Hh1, Hh2, Hm1, Hm2, Hs1, Hs2.
  repeat split; try reflexivity; f_equal;
    match goal with
    | |- (10 * (?n / 10) + ?n mod 10)%Z = ?n =>
        pose proof (Z.div_mod n 10); lia
    end.
Qed.

End ClockFacts.

(** ** The shaders *)

Lemma pow_zero (y : R) : GLSL.pow 0 y = 0.
Proof. unfold GLSL.pow. destruct (Rlt_dec 0 0); [lra|reflexivity]. Qed.

Lemma pow_one (y : R) : GLSL.pow 1 y = 1.
Proof.
  unfold GLSL.pow. destruct (Rlt_dec 0 1); [|lra].
  unfold Rpower. rewrite ln_1, Rmult_0_r. apply exp_0.
Qed.

(** X13.  The atmosphere fragment has the fixed color (0.3, 0.6, 1.0).  Its
    alpha is [0.65 * f^3 * sqrt f] for a Fresnel term [f >= 0]; it lies in
    [[0, 0.65]] for [f] in [[0, 1]]; it is [0] where the normal points at the
    viewer and [0.65] where it is perpendicular to the view direction. *)
Theorem atmosphere_glow_range :
  forall vNormal vViewDir : vec3,
    let f := 1 - GLSL.dot vNormal vViewDir in
    rgb (atmosphereFragment vNormal vViewDir) = Vec3 0.3 0.6 1.0
    /\ (0 <= f ->
        alpha (atmosphereFragment vNormal vViewDir) = 0.65 * (f * f * f * sqrt f))
    /\ (0 <= f <= 1 -> 0 <= alpha (atmosphereFragment vNormal vViewDir) <= 0.65)
    /\ (GLSL.dot vNormal vViewDir = 1 ->
        alpha (atmosphereFragment vNormal vViewDir) = 0)
    /\ (GLSL.dot vNormal vViewDir = 0 ->
        alpha (atmosphereFragment vNormal vViewDir) = 0.65).
Proof.
  intros n v f. cbn [atmosphereFragment rgb alpha]. fold f.
  split; [reflexivity|]. split; [|split; [|split]].
  - intros Hf. rewrite pow_3_5 by exact Hf. lra.
  - intros [H0 H1].
    pose proof (pow_monotone 0 f 3.5) as Hlo.
    pose proof (pow_monotone f 1 3.5) as Hhi.
    rewrite pow_zero in Hlo. rewrite pow_one in Hhi.
    assert (0 <= GLSL.pow f 3.5) by (apply Hlo; lra).
    assert (GLSL.pow f 3.5 <= 1) by (apply Hhi; lra).
    lra.
  - intros Hd. subst f. rewrite Hd.
    replace (1 - 1) with 0 by lra. rewrite pow_zero. lra.
  - intros Hd. subst f. rewrite Hd.
    replace (1 - 0) with 1 by lra. rewrite pow_one. lra.
Qed.

Lemma atmosphere_glow_range_witness :
  alpha (atmosphereFragment (Vec3 0 0 1) (Vec3 0 0 1)) = 0
  /\ alpha (atmosphereFragment (Vec3 0 0 1) (Vec3 1 0 0)) = 0.65
  /\ 0 <= alpha (atmosphereFragment (Vec3 0 0 1) (Vec3 0 1 0)) <= 0.65.
Proof.
  split; [|split].
  - apply (atmosphere_glow_range (Vec3 0 0 1) (Vec3 0 0 1)).
    unfold GLSL.dot; cbn [vx vy vz]; lra.
  - apply (atmosphere_glow_range (Vec3 0 0 1) (Vec3 1 0 0)).
    unfold GLSL.dot; cbn [vx vy vz]; lra.
  - apply (atmosphere_glow_range (Vec3 0 0 1) (Vec3 0 1 0)).
    unfold GLSL.dot; cbn [vx vy vz]; lra.
Defined.

Lemma nightFactor_day (x : R) : -0.1 <= x -> nightFactor x = 0.
Proof.
  intros Hx. unfold nightFactor, GLSL.smoothstep, GLSL.clamp.
  replace ((x - -0.1) / (-0.3 - -0.1)) with ((-0.1 - x) * 5) by lra.
  rewrite Rmax_right by lra. rewrite Rmin_left by lra. lra.
Qed.

Lemma nightFactor_night (x : R) : x <= -0.3 -> nightFactor x = 1.
Proof.
  intros Hx. unfold nightFactor, GLSL.smoothstep, GLSL.clamp.
  replace ((x - -0.1) / (-0.3 - -0.1)) with ((-0.1 - x) * 5) by lra.
  rewrite Rmax_left by lra. rewrite Rmin_right by lra. lra.
Qed.

Lemma nightFactor_range (x : R) : 0 <= nightFactor x <= 1.
Proof.
  destruct (Rle_dec (-0.1) x) as [Hd|Hd]; [rewrite nightFactor_day; lra|].
  destruct (Rle_dec x (-0.3)) as [Hn|Hn]; [rewrite nightFactor_night; lra|].
  rewrite nightFactor_ramp by lra.
  set (t := (-0.1 - x) * 5).
  assert (Ht : 0 <= t <= 1) by (subst t; lra).
  pose proof (smooth_poly_strict 0 t) as Hlo.
  pose proof (smooth_poly_strict t 1) as Hhi.
  destruct (Req_dec_T t 0) as [->|Hne0]; [lra|].
  destruct (Req_dec_T t 1) as [->|Hne1]; lra.
Qed.

(** X14.  Where the surface faces the sun by [-0.1] or more the night-lights
    fragment is zero in all four channels, so it adds nothing to the day
    side.  Where it faces away by [-0.3] or less the fragment is the night
    texel with its color times [1.5] and the texel's red channel for alpha.
    Everywhere the factor is between [0] and [1], so for a texel with
    non-negative red the alpha is never above that red. *)
Theorem night_lights_only_at_night :
  forall (vNormalW sunDirection : vec3) (nightColor : vec4),
    let sunFacing := GLSL.dot vNormalW sunDirection in
    let out := nightLightsFragment vNormalW sunDirection nightColor in
    (-0.1 <= sunFacing -> out = Vec4 (Vec3 0 0 0) 0)
    /\ (sunFacing <= -0.3 ->
        out = Vec4 (Vec3 (vx (rgb nightColor) * 1.5) (vy (rgb nightColor) * 1.5)
                      (vz (rgb nightColor) * 1.5))
                (vx (rgb nightColor)))
    /\ (0 <= vx (rgb nightColor) -> 0 <= alpha out <= vx (rgb nightColor)).
Proof.
  intros n sun c sunFacing out. subst out.
  unfold nightLightsFragment. fold sunFacing.
  split; [|split].
  - intros Hd. rewrite nightFactor_day by exact Hd.
    unfold GLSL.scale. cbn [vx vy vz]. f_equal; [f_equal|]; lra.
  - intros Hn. rewrite nightFactor_night by exact Hn.
    unfold GLSL.scale. cbn [vx vy vz]. f_equal; [f_equal|]; lra.
  - intros Hr. cbn [alpha]. pose proof (nightFactor_range sunFacing). nra.
Qed.

Lemma night_lights_only_at_night_witness :
  nightLightsFragment (Vec3 0 0 1) (Vec3 0 0 1) (Vec4 (Vec3 0.8 0.7 0.4) 1)
  = Vec4 (Vec3 0 0 0) 0
  /\ alpha (nightLightsFragment (Vec3 0 0 1) (Vec3 0 0 (-1))
              (Vec4 (Vec3 0.8 0.7 0.4) 1)) <= 0.8.
Proof.
  split.
  - apply (night_lights_only_at_night (Vec3 0 0 1) (Vec3 0 0 1)).
    unfold GLSL.dot; cbn [vx vy vz]; lra.
  - apply (night_lights_only_at_night (Vec3 0 0 1) (Vec3 0 0 (-1))
             (Vec4 (Vec3 0.8 0.7 0.4) 1)).
    cbn [rgb vx]. lra.
Defined.

(** ** The satellite builder *)

(** X17.  Whatever the draws, a built satellite starts with both of its
    animated angles at [0] and carries the speed it was given, and its body
    sits at the orbit radius.  For a positive size the two panels have the
    same geometry and are mirror images about the bus; each reaches from
    [0.3 size] to [3.3 size] from the center, so its inner edge lies inside
    the bus, which ends at [0.5 size]. *)
Theorem satellite_is_symmetric :
  forall (rnd : nat -> R) (k : nat) (orbitRadius speed : R) (color : Z)
         (size : R),
    let g := fst (SatelliteBuilder.createSatellite rnd k orbitRadius speed
                    color size) in
    SatelliteBuilder.animated g = createSatellite orbitRadius speed color size
    /\ SatelliteBuilder.satGroup_position_x g = orbitRadius
    /\ SatelliteBuilder.geometry (SatelliteBuilder.panelLeft g)
       = SatelliteBuilder.geometry (SatelliteBuilder.panelRight g)
    /\ SatelliteBuilder.minX (SatelliteBuilder.panelLeft g)
       = - SatelliteBuilder.maxX (SatelliteBuilder.panelRight g)
    /\ SatelliteBuilder.maxX (SatelliteBuilder.panelLeft g)
       = - SatelliteBuilder.minX (SatelliteBuilder.panelRight g)
    /\ SatelliteBuilder.minX (SatelliteBuilder.body g)
       = - SatelliteBuilder.maxX (SatelliteBuilder.body g)
    /\ SatelliteBuilder.minX (SatelliteBuilder.panelRight g) = 0.3 * size
    /\ SatelliteBuilder.maxX (SatelliteBuilder.panelRight g) = 3.3 * size
    /\ (0 < size ->
        SatelliteBuilder.minX (SatelliteBuilder.panelRight g)
        < SatelliteBuilder.maxX (SatelliteBuilder.body g)
        /\ SatelliteBuilder.maxX (SatelliteBuilder.panelLeft g)
           < SatelliteBuilder.minX (SatelliteBuilder.panelRight g)).
Proof.
  intros rnd k orbitRadius speed color size g. subst g.
  unfold SatelliteBuilder.createSatellite, MathUtils.randFloat,
    SatelliteBuilder.animated, SatelliteBuilder.minX, SatelliteBuilder.maxX,
    createSatellite.
  cbn [fst SatelliteBuilder.rotation_y SatelliteBuilder.speed
       SatelliteBuilder.satGroup_rotation_y SatelliteBuilder.satGroup_position_x
       SatelliteBuilder.panelLeft SatelliteBuilder.panelRight
       SatelliteBuilder.body SatelliteBuilder.geometry
       SatelliteBuilder.position_x SatelliteBuilder.width].
  do 3 (split; [reflexivity|]).
  repeat split; intros; lra.
Qed.

Lemma satellite_is_symmetric_witness :
  SatelliteBuilder.minX
    (SatelliteBuilder.panelRight
       (fst (SatelliteBuilder.createSatellite (fun _ => / 2) 0 7 0.5
               0xc0c0c0 0.12)))
  < SatelliteBuilder.maxX
      (SatelliteBuilder.body
         (fst (SatelliteBuilder.createSatellite (fun _ => / 2) 0 7 0.5
                 0xc0c0c0 0.12))).
Proof.
  apply (satellite_is_symmetric (fun _ => / 2) 0 7 0.5 0xc0c0c0 0.12). lra.
Defined.

(** ** The starfield generator *)

(** X10.  On every arithmetic, the loop of [createStarfield] takes five
    draws per star, in the order radius, [theta], [phi], size, color, and
    star [i] is stored from draws [5 i .. 5 i + 4], counted from the first
    draw of the loop; every value is narrowed by its store into the
    [Float32Array].  So two streams that agree on these five draws give the
    same star [i], whatever they hold elsewhere. *)
Theorem starfield_star_from_its_draws :
  forall (A : Starfield.Arith) (rnd : nat -> Starfield.num A) (i : nat),
    (i < Starfield.starCount)%nat ->
    (let b := Starfield.createStarfield A rnd in
     Starfield.item3 A (Starfield.positions b) i
     = Starfield.starPosition A (rnd (5 * i)%nat) (rnd (5 * i + 1)%nat)
         (rnd (5 * i + 2)%nat)
     /\ Starfield.item1 A (Starfield.sizes b) i
        = Starfield.Math_fround A
            (Starfield.add A (Starfield.lit A 0.3)
               (Starfield.mul A (rnd (5 * i + 3)%nat) (Starfield.lit A 0.7)))
     /\ Starfield.item3 A (Starfield.colors b) i
        = Starfield.starColor A (rnd (5 * i + 4)%nat))
    /\ (forall rnd' : nat -> Starfield.num A,
           (forall j : nat, (j < 5)%nat -> rnd' (5 * i + j)%nat = rnd (5 * i + j)%nat) ->
           let b := Starfield.createStarfield A rnd in
           let b' := Starfield.createStarfield A rnd' in
           Starfield.item3 A (Starfield.positions b') i
           = Starfield.item3 A (Starfield.positions b) i
           /\ Starfield.item1 A (Starfield.sizes b') i
              = Starfield.item1 A (Starfield.sizes b) i
           /\ Starfield.item3 A (Starfield.colors b') i
              = Starfield.item3 A (Starfield.colors b) i).
Proof.
  intros A rnd i Hi.
  destruct (createStarfield_star A rnd i Hi) as (Hp & Hs & Hc).
  split.
  - cbn zeta. split; [exact Hp|]. split; [exact Hs|exact Hc].
  - intros rnd' Hsame b b'. subst b b'.
    destruct (createStarfield_star A rnd' i Hi) as (Hp' & Hs' & Hc').
    rewrite Hp, Hs, Hc, Hp', Hs', Hc'.
    pose proof (Hsame 0%nat ltac:(lia)) as H0.
    pose proof (Hsame 1%nat ltac:(lia)) as H1.
    pose proof (Hsame 2%nat ltac:(lia)) as H2.
    pose proof (Hsame 3%nat ltac:(lia)) as H3.
    pose proof (Hsame 4%nat ltac:(lia)) as H4.
    rewrite Nat.add_0_r in H0.
    rewrite H0, H1, H2, H3, H4. repeat split.
Qed.

Lemma starfield_star_from_its_draws_witness :
  Starfield.item3 exactArith
    (Starfield.colors
       (Starfield.createStarfield exactArith
          (fun k : nat => if (k <? 5)%nat then 1 / 2 else 0))) 0
  = Starfield.item3 exactArith
      (Starfield.colors
         (Starfield.createStarfield exactArith (fun _ : nat => 1 / 2))) 0.
Proof.
  assert (H0 : (0 < Starfield.starCount)%nat)
    by (apply Nat.ltb_lt; reflexivity).
  assert (Hsame : forall j : nat,
             (j < 5)%nat ->
             (fun k : nat => if (k <? 5)%nat then 1 / 2 else 0) (5 * 0 + j)%nat
             = (fun _ : nat => 1 / 2) (5 * 0 + j)%nat).
  { intros j Hj. cbn beta. change (5 * 0 + j)%nat with j.
    apply Nat.ltb_lt in Hj. rewrite Hj. reflexivity. }
  exact (proj2 (proj2 (proj2
           (starfield_star_from_its_draws exactArith (fun _ : nat => 1 / 2)
              0%nat H0)
           (fun k : nat => if (k <? 5)%nat then 1 / 2 else 0) Hsame))).
Defined.

(** X12.  On binary64 the color of star [i] is chosen by its fifth draw
    [temp]: the warm triple when [temp < 0.15], the cool one when
    [0.15 <= temp < 0.3], white otherwise (also when [temp] does not
    compare), the bounds being the binary64 values of the two literals.  The
    buffer holds the triples narrowed to binary32:
    (1, 0.85000002384185791, 0.69999998807907104),
    (0.69999998807907104, 0.80000001192092896, 1) and (1, 1, 1); they differ
    from one another, so the stored color tells the bucket. *)
Theorem starfield_color_buckets :
  (StoredColor.warm = (1, 0.85000002384185791, 0.69999998807907104)%float
   /\ StoredColor.cool = (0.69999998807907104, 0.80000001192092896, 1)%float
   /\ StoredColor.white = (1, 1, 1)%float)
  /\ forall (Math_sin Math_cos Math_acos : float -> float)
       (rnd : nat -> float) (i : nat),
      (i < Starfield.starCount)%nat ->
      let A := binary64Arith Math_sin Math_cos Math_acos in
      let temp := rnd (5 * i + 4)%nat in
      let c := Starfield.item3 A
                 (Starfield.colors (Starfield.createStarfield A rnd)) i in
      (c = StoredColor.warm <-> PrimFloat.ltb temp 0.15 = true)
      /\ (c = StoredColor.cool
          <-> PrimFloat.ltb temp 0.15 = false /\ PrimFloat.ltb temp 0.3 = true)
      /\ (c = StoredColor.white
          <-> PrimFloat.ltb temp 0.15 = false /\ PrimFloat.ltb temp 0.3 = false).
Proof.
  split; [exact stored_colors_value|].
  intros Math_sin Math_cos Math_acos rnd i Hi A temp c. subst c A.
  rewrite binary64_star_color by exact Hi. fold temp.
  destruct stored_colors_distinct as (Hwc & Hww & Hcw).
  destruct (PrimFloat.ltb temp 0.15); [|destruct (PrimFloat.ltb temp 0.3)];
    (split; [|split]);
    (split;
     [ intros H;
       first [ solve [repeat split; reflexivity]
             | exfalso;
               first [ exact (Hwc H) | exact (Hww H) | exact (Hcw H)
                     | exact (Hwc (eq_sym H)) | exact (Hww (eq_sym H))
                     | exact (Hcw (eq_sym H)) ] ]
     | intros H;
       first [ reflexivity | discriminate | destruct H; discriminate ] ]).
Qed.

Lemma starfield_color_buckets_witness :
  Starfield.item3
    (binary64Arith MathSample.Math_sin MathSample.Math_cos MathSample.Math_acos)
    (Starfield.colors
       (Starfield.createStarfield
          (binary64Arith MathSample.Math_sin MathSample.Math_cos
             MathSample.Math_acos)
          (fun _ : nat => 0.2%float))) 3
  = StoredColor.cool.
Proof.
  assert (H3 : (3 < Starfield.starCount)%nat)
    by (apply Nat.ltb_lt; reflexivity).
  apply (proj2 (proj1 (proj2
           (proj2 starfield_color_buckets MathSample.Math_sin
              MathSample.Math_cos MathSample.Math_acos
              (fun _ : nat => 0.2%float) 3%nat H3)))).
  split; vm_compute; reflexivity.
Defined.

(** ** The clamp and NaN on binary64 *)

Lemma SFcompare_antisym (x y : spec_float) :
  SFcompare y x = option_map CompOpp (SFcompare x y).
Proof.
  destruct x as [sx|sx| |sx mx ex], y as [sy|sy| |sy my ey];
    try reflexivity; try (destruct sx; reflexivity);
    try (destruct sy; reflexivity);
    try (destruct sx, sy; reflexivity).
  cbn [SFcompare option_map].
  rewrite (Z.compare_antisym ex ey).
  pose proof (Pos.compare_cont_antisym mx my Eq) as Hm. cbn [CompOpp] in Hm.
  rewrite <- Hm.
  destruct sx, sy; cbn; try reflexivity;
    destruct (ex ?= ey)%Z; cbn; try reflexivity;
    now rewrite CompOpp_involutive.
Qed.

Lemma not_nan_spec (x : float) :
  PrimFloat.is_nan x = false -> Prim2SF x <> S754_nan.
Proof.
  intros H Hn. apply is_nan_spec in Hn. congruence.
Qed.

Lemma Math_min_clamps (x c : float) :
  PrimFloat.is_nan x = false -> PrimFloat.is_nan c = false ->
  PrimFloat.leb (Binary64.Math_min x c) c = true
  /\ (Binary64.Math_min x c = x \/ Binary64.Math_min x c = c).
Proof.
  intros Hx Hc. unfold Binary64.Math_min. rewrite Hx, Hc. cbn [orb].
  assert (Hcc : PrimFloat.leb c c = true).
  { rewrite leb_spec. unfold SFleb.
    pose proof (not_nan_spec c Hc) as Hn.
    destruct (Prim2SF c) as [s|s| |s m e]; [reflexivity|destruct s; reflexivity
                                           |contradiction|].
    cbn. rewrite Z.compare_refl, Pos.compare_cont_refl. destruct s; reflexivity. }
  destruct (PrimFloat.ltb x c) eqn:Hlt.
  - split; [|now left]. rewrite leb_spec. rewrite ltb_spec in Hlt.
    unfold SFleb, SFltb in *.
    destruct (SFcompare (Prim2SF x) (Prim2SF c)) as [[ | | ]|]; congruence.
  - destruct (PrimFloat.ltb c x) eqn:Hgt; [split; [exact Hcc|now right]|].
    assert (Hxc : PrimFloat.leb x c = true).
    { rewrite leb_spec. rewrite ltb_spec in Hlt, Hgt.
      unfold SFleb, SFltb in *.
      rewrite (SFcompare_antisym (Prim2SF x) (Prim2SF c)) in Hgt.
      pose proof (not_nan_spec x Hx) as Hnx.
      pose proof (not_nan_spec c Hc) as Hnc.
      destruct (SFcompare (Prim2SF x) (Prim2SF c)) as [[ | | ]|] eqn:E;
        cbn in Hgt; try congruence.
      destruct (Prim2SF x) as [?|?| |? ? ?], (Prim2SF c) as [?|?| |? ? ?];
        try contradiction; cbn in E; discriminate. }
    destruct (get_sign x); split; auto.
Qed.

(** X18.  On binary64, when the difference of the two frame-clock times is
    not NaN, the clamped delta is that difference or [0.1], it is not NaN and
    it compares [<= 0.1]; when the difference is NaN, so is the delta. *)
Theorem binary64_delta_is_clamped :
  forall currentTime previousTime : float,
    (PrimFloat.is_nan (currentTime - previousTime)%float = false ->
     PrimFloat.leb (Binary64.clampedDelta currentTime previousTime) 0.1%float
     = true
     /\ PrimFloat.is_nan (Binary64.clampedDelta currentTime previousTime)
        = false
     /\ (Binary64.clampedDelta currentTime previousTime
         = (currentTime - previousTime)%float
         \/ Binary64.clampedDelta currentTime previousTime = 0.1%float))
    /\ (PrimFloat.is_nan (currentTime - previousTime)%float = true ->
        PrimFloat.is_nan (Binary64.clampedDelta currentTime previousTime)
        = true).
Proof.
  intros cur prev. unfold Binary64.clampedDelta. split.
  - intros Hd.
    destruct (Math_min_clamps (cur - prev)%float 0.1%float Hd eq_refl)
      as [Hle Hor].
    split; [exact Hle|]. split; [|exact Hor].
    destruct Hor as [-> | ->]; [exact Hd|reflexivity].
  - intros Hd. unfold Binary64.Math_min. rewrite Hd. reflexivity.
Qed.

Lemma binary64_delta_is_clamped_witness :
  PrimFloat.leb (Binary64.clampedDelta 6%float 1%float) 0.1%float = true
  /\ PrimFloat.is_nan (Binary64.clampedDelta nan 1%float) = true.
Proof.
  split.
  - apply (binary64_delta_is_clamped 6%float 1%float). reflexivity.
  - apply (binary64_delta_is_clamped nan 1%float). reflexivity.
Defined.

(** X19.  On binary64 a NaN never goes away: an integration step whose angle
    or whose delta is NaN gives NaN, so a moon orbit angle that is NaN before
    a frame is NaN after it. *)
Theorem binary64_nan_is_absorbing :
  (forall a d r : float,
      PrimFloat.is_nan a = true ->
      PrimFloat.is_nan (Binary64.integrate a d r) = true)
  /\ (forall a d r : float,
         PrimFloat.is_nan d = true ->
         PrimFloat.is_nan (Binary64.integrate a d r) = true)
  /\ (forall (perf : float) (now : JsDate.Date) (w : Binary64.Scene),
         PrimFloat.is_nan (Binary64.moonOrbit_rotation_y w) = true ->
         PrimFloat.is_nan
           (Binary64.moonOrbit_rotation_y (Binary64.animate perf now w))
         = true).
Proof.
  assert (Ha : forall a d r : float,
             PrimFloat.is_nan a = true ->
             PrimFloat.is_nan (Binary64.integrate a d r) = true).
  { intros a d r H. apply is_nan_spec in H. apply is_nan_spec.
    unfold Binary64.integrate. rewrite add_spec, H. reflexivity. }
  split; [exact Ha|]. split.
  - intros a d r H. apply is_nan_spec in H. apply is_nan_spec.
    unfold Binary64.integrate. rewrite add_spec, mul_spec, H.
    cbn. now destruct (Prim2SF a).
  - intros perf now w H. cbn [Binary64.animate Binary64.moonOrbit_rotation_y].
    now apply Ha.
Qed.

Lemma binary64_nan_is_absorbing_witness :
  PrimFloat.is_nan (Binary64.integrate nan 0.1%float 0.08%float) = true
  /\ PrimFloat.is_nan (Binary64.integrate 0%float nan 0.08%float) = true.
Proof.
  destruct binary64_nan_is_absorbing as (Ha & Hd & _).
  split; [apply Ha|apply Hd]; reflexivity.
Defined.
